(** * talktime-tally: the speaking-session state machine

    A shallow embedding of the client code that drives the speaking
    sessions of a meeting (ParticipantTimer, ParticipantsNameList,
    ActiveMeetingView, CreateMeetingDialog, QuestionsPanel) over a model of
    the row store it talks to, and the properties of the specification
    that concern it.

    Conventions.
    - Row identifiers are the UUID strings of the store; instants are
      integers (milliseconds since the epoch, what [Date.now()] returns and
      what an ISO timestamp denotes).
    - Second counts are JavaScript numbers holding integers; they are
      modelled in [Z].
    - Columns that the schema leaves nullable but gives a DEFAULT, and that
      the code only ever writes with a value ([is_active],
      [is_currently_speaking], [total_speaking_time], [speaking_sessions]),
      have the type the component interfaces declare for them.
    - Every remote call answers [{data, error}]; it never throws. Whether a
      call is refused (network, authorisation, foreign keys) is decided by
      the environment: a script of responses that the calls consume in
      order. Two refusals are the store's own, whatever the script says: an
      insert with an identifier already present (the primary keys), and a
      call that names a column its table does not have.
    - The policy on [meetings] lets a user read and update the meetings that
      user created, and no others. The rows of the other tables follow their
      meeting; the components that work on them are opened from the
      dashboard on one of the signed-in user's meetings, whose rows the
      policies let through.
    - A column is named after its table: [p_id] is [participants.id],
      [s_ended_at] is [speaking_sessions.ended_at]; the state of the creation
      dialog carries [dlg_]. *)

From Stdlib Require Import ZArith List String Ascii Bool Lia DecimalString.
From stdpp Require Import gmap strings.
Import ListNotations.

Local Open Scope Z_scope.
Local Open Scope string_scope.
Local Open Scope list_scope.

(** ** Rows of the store (supabase/migrations) *)

Definition uuid := string.
Definition timestamp := Z.

Record Meeting := {
  m_id : uuid;
  m_title : string;
  m_created_by : uuid;
  m_is_active : bool;
  m_created_at : timestamp;
  m_ended_at : option timestamp
}.

Record Participant := {
  p_id : uuid;
  p_meeting_id : uuid;
  p_name : string;
  p_total_speaking_time : Z;
  p_speaking_sessions : Z;
  p_is_currently_speaking : bool
}.

Record SpeakingSession := {
  s_id : uuid;
  s_participant_id : uuid;
  s_meeting_id : uuid;
  s_started_at : timestamp;
  s_ended_at : option timestamp;
  s_duration : option Z
}.

(** The columns of [speaking_sessions], as the migration and the generated
    types declare them. *)
Definition speaking_sessions_columns : list string :=
  ["id"; "participant_id"; "meeting_id"; "started_at"; "ended_at"; "duration"].

Record Question := {
  q_id : uuid;
  q_meeting_id : uuid;
  q_question : string;
  q_asker_name : option string;
  q_is_answered : bool;
  q_created_at : timestamp
}.

Record Db := {
  meetings : list Meeting;
  participants : list Participant;
  speaking_sessions : list SpeakingSession;
  questions : list Question
}.

(** Column updates, one per [update({...})] payload of the code. *)

Definition set_is_currently_speaking (b : bool) (p : Participant) : Participant :=
  {| p_id := p_id p; p_meeting_id := p_meeting_id p; p_name := p_name p;
     p_total_speaking_time := p_total_speaking_time p;
     p_speaking_sessions := p_speaking_sessions p;
     p_is_currently_speaking := b |}.

Definition set_stats (speaking : bool) (total sessions : Z) (p : Participant) : Participant :=
  {| p_id := p_id p; p_meeting_id := p_meeting_id p; p_name := p_name p;
     p_total_speaking_time := total;
     p_speaking_sessions := sessions;
     p_is_currently_speaking := speaking |}.

Definition set_ended_at (t : timestamp) (s : SpeakingSession) : SpeakingSession :=
  {| s_id := s_id s; s_participant_id := s_participant_id s;
     s_meeting_id := s_meeting_id s; s_started_at := s_started_at s;
     s_ended_at := Some t; s_duration := s_duration s |}.

Definition set_ended_at_duration (t : timestamp) (d : Z) (s : SpeakingSession) : SpeakingSession :=
  {| s_id := s_id s; s_participant_id := s_participant_id s;
     s_meeting_id := s_meeting_id s; s_started_at := s_started_at s;
     s_ended_at := Some t; s_duration := Some d |}.

Definition set_inactive (t : timestamp) (m : Meeting) : Meeting :=
  {| m_id := m_id m; m_title := m_title m; m_created_by := m_created_by m;
     m_is_active := false; m_created_at := m_created_at m;
     m_ended_at := Some t |}.

Definition with_meetings (l : list Meeting) (d : Db) : Db :=
  {| meetings := l; participants := participants d;
     speaking_sessions := speaking_sessions d; questions := questions d |}.

Definition with_participants (l : list Participant) (d : Db) : Db :=
  {| meetings := meetings d; participants := l;
     speaking_sessions := speaking_sessions d; questions := questions d |}.

Definition with_sessions (l : list SpeakingSession) (d : Db) : Db :=
  {| meetings := meetings d; participants := participants d;
     speaking_sessions := l; questions := questions d |}.

Definition with_questions (l : list Question) (d : Db) : Db :=
  {| meetings := meetings d; participants := participants d;
     speaking_sessions := speaking_sessions d; questions := l |}.

(** ** The policy on meetings

    [USING (created_by = auth.uid())], for SELECT and for UPDATE: the rows of
    [meetings] that a call made by [uid] gets to see or to patch. Nobody
    signed in sees none. *)
Definition own_meeting (uid : option uuid) (m : Meeting) : bool :=
  match uid with
  | Some u => String.eqb (m_created_by m) u
  | None => false
  end.

(** ** Table operations *)

Definition is_null {A} (o : option A) : bool :=
  match o with None => true | Some _ => false end.

(** [update(patch)] under a row filter: every matching row is patched in
    place, the others are left as they are. *)
Definition update_where {A} (cond : A -> bool) (patch : A -> A) (rows : list A) : list A :=
  map (fun r => if cond r then patch r else r) rows.

(** [insert(row)]: the primary key refuses an identifier already present. *)
Definition insert_row {A} (key : A -> uuid) (r : A) (rows : list A) : option (list A) :=
  if existsb (fun x => String.eqb (key x) (key r)) rows then None
  else Some (rows ++ [r]).

Fixpoint insert_rows {A} (key : A -> uuid) (rs : list A) (rows : list A) : option (list A) :=
  match rs with
  | [] => Some rows
  | r :: rs' =>
      match insert_row key r rows with
      | Some rows' => insert_rows key rs' rows'
      | None => None
      end
  end.

(** ** The remote-call monad *)

Inductive response := Accept | Reject.

Record World := {
  store : Db;
  script : list response
}.

Inductive reply (A : Type) :=
| Data (a : A)
| Error.
Arguments Data {A} a.
Arguments Error {A}.

Definition Remote (A : Type) : Type := World -> A * World.

Definition ret {A} (a : A) : Remote A := fun w => (a, w).

Definition bind {A B} (c : Remote A) (k : A -> Remote B) : Remote B :=
  fun w => let (a, w') := c w in k a w'.

Notation "x <- c ;; k" := (bind c (fun x => k))
  (at level 100, c at next level, right associativity).
Notation "c ;;; k" := (bind c (fun _ => k))
  (at level 100, right associativity).

(** One awaited call: the next scripted response decides whether the store
    takes it; an exhausted script accepts. A refused call, like one that a
    constraint rejects, changes nothing and answers with an error. *)
Definition request {A} (f : Db -> option (A * Db)) : Remote (reply A) :=
  fun w =>
    match script w with
    | Reject :: rest => (Error, {| store := store w; script := rest |})
    | _ =>
        match f (store w) with
        | Some (a, d) => (Data a, {| store := d; script := tl (script w) |})
        | None => (Error, {| store := store w; script := tl (script w) |})
        end
    end.

(** A call that names columns of a table: the store refuses it when the
    table lacks one of them, and otherwise treats it like any other. *)
Definition has_columns (table named : list string) : bool :=
  forallb (fun c => existsb (String.eqb c) table) named.

Definition request_on {A} (table named : list string) (f : Db -> option (A * Db))
  : Remote (reply A) :=
  request (fun d => if has_columns table named then f d else None).

Definition all_accept (l : list response) : bool :=
  forallb (fun r => match r with Accept => true | Reject => false end) l.

(** Values the store generates for DEFAULT columns of an inserted row:
    [gen_random_uuid()] and [now()]. *)
Record Generated := {
  gen_id : uuid;
  gen_now : timestamp
}.

Inductive toast := Toast (title description : string).

(** Truthiness of a string: the empty string is the only falsy one. *)
Definition truthy (s : string) : bool :=
  match s with EmptyString => false | String _ _ => true end.

(** ** ParticipantTimer *)

Record TimerState := {
  currentSessionTime : Z;
  activeSessionId : option uuid
}.

(** The interval of the effect: one more second while the card's participant
    is shown as speaking. *)
Definition tick (participant : Participant) (st : TimerState) : TimerState :=
  if p_is_currently_speaking participant
  then {| currentSessionTime := currentSessionTime st + 1;
          activeSessionId := activeSessionId st |}
  else st.

Definition new_session (participant_id meetingId : uuid) (g : Generated) : SpeakingSession :=
  {| s_id := gen_id g; s_participant_id := participant_id;
     s_meeting_id := meetingId; s_started_at := gen_now g;
     s_ended_at := None; s_duration := None |}.

Definition startSpeaking (participant : Participant) (meetingId : uuid)
    (now : timestamp) (g : Generated) (st : TimerState)
  : Remote (TimerState * option toast) :=
  (* First, stop any other participants who might be speaking *)
  request (fun d => Some (tt, with_participants
      (update_where (fun r => String.eqb (p_meeting_id r) meetingId)
                    (set_is_currently_speaking false) (participants d)) d)) ;;;
  (* End any active sessions *)
  activeSessions <- request (fun d => Some
      (map s_id (List.filter (fun s => String.eqb (s_meeting_id s) meetingId
                                      && is_null (s_ended_at s))
                             (speaking_sessions d)), d)) ;;
  match activeSessions with
  | Data ((_ :: _) as ids) =>
      request (fun d => Some (tt, with_sessions
        (update_where (fun s => existsb (String.eqb (s_id s)) ids)
                      (set_ended_at now) (speaking_sessions d)) d)) ;;; ret tt
  | _ => ret tt
  end ;;;
  (* Start new session *)
  newSession <- request (fun d =>
      let row := new_session (p_id participant) meetingId g in
      match insert_row s_id row (speaking_sessions d) with
      | Some l => Some (row, with_sessions l d)
      | None => None
      end) ;;
  match newSession with
  | Error => ret (st, Some (Toast "Error" "Failed to start speaking session"))
  | Data newSession =>
      (* Update participant status *)
      request (fun d => Some (tt, with_participants
        (update_where (fun r => String.eqb (p_id r) (p_id participant))
                      (set_is_currently_speaking true) (participants d)) d)) ;;;
      ret ({| currentSessionTime := 0;
              activeSessionId := Some (s_id newSession) |}, None)
  end.

(** What [if (activeSessionId)] lets through: an identifier that is neither
    null nor the empty string. *)
Definition held_session (st : TimerState) : option uuid :=
  match activeSessionId st with
  | Some sid => if truthy sid then Some sid else None
  | None => None
  end.

Definition stopSpeaking (participant : Participant) (now : timestamp)
    (st : TimerState) : Remote (TimerState * option toast) :=
  let sessionDuration := currentSessionTime st in
  (* End current session *)
  match held_session st with
  | Some sid =>
      request (fun d => Some (tt, with_sessions
        (update_where (fun s => String.eqb (s_id s) sid)
                      (set_ended_at_duration now sessionDuration)
                      (speaking_sessions d)) d)) ;;; ret tt
  | None => ret tt
  end ;;;
  (* Update participant stats *)
  request (fun d => Some (tt, with_participants
    (update_where (fun r => String.eqb (p_id r) (p_id participant))
       (set_stats false
          (p_total_speaking_time participant + sessionDuration)
          (p_speaking_sessions participant + 1))
       (participants d)) d)) ;;;
  ret ({| currentSessionTime := 0; activeSessionId := None |}, None).

(** ** String.prototype.trim

    Strings are sequences of 8-bit code units; the white space of
    JavaScript in that range is TAB, LF, VT, FF, CR, SPACE and NBSP. *)

Definition is_white_space (c : ascii) : bool :=
  let n := nat_of_ascii c in
  ((9 <=? n)%nat && (n <=? 13)%nat) || (n =? 32)%nat || (n =? 160)%nat.

Fixpoint trim_start (l : list ascii) : list ascii :=
  match l with
  | [] => []
  | c :: l' => if is_white_space c then trim_start l' else l
  end.

Definition trim (s : string) : string :=
  string_of_list_ascii
    (rev (trim_start (rev (trim_start (list_ascii_of_string s))))).

(** ** ParticipantsNameList *)

Record NameListState := {
  newParticipantName : string;
  isAdding : bool;
  activeParticipant : option uuid
}.

Definition addParticipant (meetingId : uuid) (g : Generated) (st : NameListState)
  : Remote (NameListState * option toast) :=
  if negb (truthy (trim (newParticipantName st))) then ret (st, None)
  else
    r <- request (fun d =>
        let row := {| p_id := gen_id g; p_meeting_id := meetingId;
                      p_name := trim (newParticipantName st);
                      p_total_speaking_time := 0;
                      p_speaking_sessions := 0;
                      p_is_currently_speaking := false |} in
        match insert_row p_id row (participants d) with
        | Some l => Some (tt, with_participants l d)
        | None => None
        end) ;;
    match r with
    | Error =>
        ret ({| newParticipantName := newParticipantName st; isAdding := false;
                activeParticipant := activeParticipant st |},
             Some (Toast "Error" "Failed to add participant"))
    | Data _ =>
        ret ({| newParticipantName := ""; isAdding := false;
                activeParticipant := activeParticipant st |},
             Some (Toast "Success" "Participant added successfully"))
    end.

(** What one click on a name leaves behind: the component's
    [activeParticipant], the [onActiveChange] notification if one was sent,
    and the toast if one was raised. *)
Record ToggleResult := {
  toggle_active : option uuid;
  toggle_change : option (option uuid);
  toggle_toast : option toast
}.

Definition toggle_failed (active : option uuid) : ToggleResult :=
  {| toggle_active := active; toggle_change := None;
     toggle_toast := Some (Toast "Error" "Failed to update speaking status") |}.

(** A click on a name. The two calls on [speaking_sessions] name
    [start_time] and [end_time], the first in the row to insert, the second
    in the patch and in the row filter, with [now] as the value; the body of
    each call is what is left of it once that column is set aside. *)
Definition toggleParticipantSpeaking (shown : list Participant) (meetingId : uuid)
    (participantId : uuid) (now : timestamp) (g : Generated)
    (active : option uuid) : Remote ToggleResult :=
  match find (fun p => String.eqb (p_id p) participantId) shown with
  | None => ret {| toggle_active := active; toggle_change := None;
                   toggle_toast := None |}
  | Some participant =>
      let newStatus := negb (p_is_currently_speaking participant) in
      (* If starting to speak, stop all other participants first *)
      (if newStatus then
         request (fun d => Some (tt, with_participants
           (update_where (fun r => String.eqb (p_meeting_id r) meetingId)
                         (set_is_currently_speaking false) (participants d)) d)) ;;;
         ret tt
       else ret tt) ;;;
      (* Update the selected participant *)
      r <- request (fun d => Some (tt, with_participants
           (update_where (fun r => String.eqb (p_id r) participantId)
                         (set_is_currently_speaking newStatus) (participants d)) d)) ;;
      match r with
      | Error => ret (toggle_failed active)
      | Data _ =>
          if newStatus then
            (* If starting to speak, create a speaking session *)
            r <- request_on speaking_sessions_columns
                   ["participant_id"; "meeting_id"; "start_time"]
                   (fun d =>
                      let row := new_session participantId meetingId g in
                      match insert_row s_id row (speaking_sessions d) with
                      | Some l => Some (tt, with_sessions l d)
                      | None => None
                      end) ;;
            match r with
            | Error => ret (toggle_failed active)
            | Data _ =>
                ret {| toggle_active := Some participantId;
                       toggle_change := Some (Some participantId);
                       toggle_toast := None |}
            end
          else
            (* End the current speaking session *)
            r <- request_on speaking_sessions_columns
                   ["end_time"; "participant_id"]
                   (fun d => Some (tt, d)) ;;
            match r with
            | Error => ret (toggle_failed active)
            | Data _ =>
                ret {| toggle_active := None; toggle_change := Some None;
                       toggle_toast := None |}
            end
      end
  end.

(** ** ActiveMeetingView: the live-timer counters *)

Record Counter := {
  startTime : Z;
  baseSeconds : Z
}.

(** [x || 0] on a number. *)
Definition or_zero (x : Z) : Z := if Z.eqb x 0 then 0 else x.

(** The effect that syncs the local counters with the fetched participants;
    [now] is [Date.now()] at the moment it runs. *)
Definition sync_local_counters (shown : list Participant)
    (localCounters : gmap string Counter) (now : Z) : gmap string Counter :=
  match find p_is_currently_speaking shown with
  | Some currentSpeaker =>
      (* If someone is speaking but we don't have a local counter, start one *)
      match localCounters !! p_id currentSpeaker with
      | None =>
          {[ p_id currentSpeaker :=
               {| startTime := now;
                  baseSeconds := or_zero (p_total_speaking_time currentSpeaker) |} ]}
      | Some _ => localCounters
      end
  | None =>
      (* If no one is speaking, clear all counters *)
      if (0 <? size localCounters)%nat then ∅ else localCounters
  end.

(** ** CreateMeetingDialog *)

Record DialogState := {
  dlg_loading : bool;
  dlg_title : string;
  dlg_participants : list string
}.

Definition new_participants (meeting : uuid) (names : list string)
    (gp : nat -> Generated) : list Participant :=
  map (fun '(i, name) =>
         {| p_id := gen_id (gp i); p_meeting_id := meeting;
            p_name := trim name;
            p_total_speaking_time := 0; p_speaking_sessions := 0;
            p_is_currently_speaking := false |})
      (combine (seq 0 (length names)) names).

Definition show_nat (n : nat) : string :=
  DecimalString.NilZero.string_of_uint (Nat.to_uint n).

(** [user] is the identity of the signed-in user, if there is one: the
    [auth.uid()] of the policy, and the [created_by] of the new row, which is
    NOT NULL. *)
Definition handleCreate (user : option uuid) (now : timestamp)
    (gm : Generated) (gp : nat -> Generated) (st : DialogState)
  : Remote (DialogState * option toast) :=
  if negb (truthy (trim (dlg_title st))) then
    ret (st, Some (Toast "Error" "Please enter a meeting title"))
  else
    let validParticipants :=
      List.filter (fun p => negb (String.eqb (trim p) "")) (dlg_participants st) in
    if (length validParticipants =? 0)%nat then
      ret (st, Some (Toast "Error" "Please add at least one participant"))
    else
      let failed :=
        ({| dlg_loading := false; dlg_title := dlg_title st;
            dlg_participants := dlg_participants st |},
         Some (Toast "Error" "Failed to create meeting")) in
      (* First, end any existing active meetings *)
      request (fun d => Some (tt, with_meetings
        (update_where (fun m => Bool.eqb (m_is_active m) true && own_meeting user m)
                      (set_inactive now) (meetings d)) d)) ;;;
      (* Create new meeting *)
      meeting <- request (fun d =>
          match user with
          | None => None
          | Some u =>
              let row := {| m_id := gen_id gm; m_title := trim (dlg_title st);
                            m_created_by := u; m_is_active := true;
                            m_created_at := gen_now gm; m_ended_at := None |} in
              match insert_row m_id row (meetings d) with
              | Some l => Some (row, with_meetings l d)
              | None => None
              end
          end) ;;
      match meeting with
      | Error => ret failed
      | Data meeting =>
          (* Add participants *)
          r <- request (fun d =>
              match insert_rows p_id
                      (new_participants (m_id meeting) validParticipants gp)
                      (participants d) with
              | Some l => Some (tt, with_participants l d)
              | None => None
              end) ;;
          match r with
          | Error => ret failed
          | Data _ =>
              ret ({| dlg_loading := false; dlg_title := "";
                      dlg_participants := [""] |},
                   Some (Toast "Meeting created"
                           (dlg_title st ++ " has been created with "
                            ++ show_nat (length validParticipants)
                            ++ " participants")))
          end
      end.

(** ** MeetingDashboard

    [meetingId] is the identifier of the meeting the dashboard has open, one
    that [fetchMeetings] returned: a meeting of the signed-in user, which the
    policy lets that user update. *)

Definition handleEndMeeting (meetingId : uuid) (now : timestamp)
  : Remote (option toast) :=
  r <- request (fun d => Some (tt, with_meetings
       (update_where (fun m => String.eqb (m_id m) meetingId)
                     (set_inactive now) (meetings d)) d)) ;;
  match r with
  | Error => ret (Some (Toast "Error" "Failed to end meeting"))
  | Data _ =>
      ret (Some (Toast "Meeting ended" "The meeting has been successfully ended"))
  end.

(** ** QuestionsPanel *)

Record QuestionForm := {
  newQuestion : string;
  askerName : string;
  isAnonymous : bool
}.

Definition submitQuestion (meetingId : uuid) (g : Generated) (st : QuestionForm)
  : Remote (QuestionForm * option toast) :=
  if negb (truthy (trim (newQuestion st))) then
    ret (st, Some (Toast "Error" "Please enter a question"))
  else if negb (isAnonymous st) && negb (truthy (trim (askerName st))) then
    ret (st, Some (Toast "Error" "Please enter your name or submit anonymously"))
  else
    r <- request (fun d =>
        let row := {| q_id := gen_id g; q_meeting_id := meetingId;
                      q_question := trim (newQuestion st);
                      q_asker_name := if isAnonymous st then None
                                      else Some (trim (askerName st));
                      q_is_answered := false; q_created_at := gen_now g |} in
        match insert_row q_id row (questions d) with
        | Some l => Some (tt, with_questions l d)
        | None => None
        end) ;;
    match r with
    | Error => ret (st, Some (Toast "Error" "Failed to submit question"))
    | Data _ =>
        ret ({| newQuestion := ""; askerName := askerName st;
                isAnonymous := isAnonymous st |},
             Some (Toast "Question submitted"
                     "Your question has been added to the meeting"))
    end.

(** ** Predicates over the store *)

(** An identifier that no row of the table carries. *)
Definition fresh {A} (key : A -> uuid) (i : uuid) (rows : list A) : bool :=
  negb (existsb (fun x => String.eqb (key x) i) rows).

(** The primary key: no identifier twice. *)
Fixpoint unique {A} (key : A -> uuid) (rows : list A) : bool :=
  match rows with
  | [] => true
  | r :: rows' => fresh key (key r) rows' && unique key rows'
  end.

(** The identifiers that the cleanup query of [startSpeaking] returns. *)
Definition open_session_ids (meetingId : uuid) (rows : list SpeakingSession) : list uuid :=
  map s_id (List.filter (fun s => String.eqb (s_meeting_id s) meetingId
                                  && is_null (s_ended_at s)) rows).

Definition speaking_in (meetingId : uuid) (p : Participant) : bool :=
  String.eqb (p_meeting_id p) meetingId && p_is_currently_speaking p.


(** The sessions of a participant that the ledger still shows as open. *)
Definition open_sessions_of (participant_id : uuid) (rows : list SpeakingSession)
  : list SpeakingSession :=
  List.filter (fun s => String.eqb (s_participant_id s) participant_id
                        && is_null (s_ended_at s)) rows.

(** The local timer holds a session of the participant that is open in the
    store. *)
Definition holds_open_session (st : TimerState) (participant_id : uuid) (d : Db) : bool :=
  match held_session st with
  | Some sid =>
      existsb (fun s => String.eqb (s_id s) sid
                        && String.eqb (s_participant_id s) participant_id
                        && is_null (s_ended_at s)) (speaking_sessions d)
  | None => false
  end.

(** The session of the participant with the latest [started_at] (the later
    row of the table among equals). *)
Definition most_recent_session (participant_id : uuid) (rows : list SpeakingSession)
  : option SpeakingSession :=
  fold_left
    (fun best s =>
       if String.eqb (s_participant_id s) participant_id then
         match best with
         | Some b => if Z.leb (s_started_at b) (s_started_at s) then Some s else best
         | None => Some s
         end
       else best)
    rows None.

(** The row a card is rendered from once the list has been fetched again. *)
Definition card (participant_id : uuid) (d : Db) (otherwise : Participant) : Participant :=
  match find (fun p => String.eqb (p_id p) participant_id) (participants d) with
  | Some p => p
  | None => otherwise
  end.

(** ** A meeting to run the operations on *)

Definition alice : Participant :=
  {| p_id := "p-alice"; p_meeting_id := "m-1"; p_name := "Alice";
     p_total_speaking_time := 0; p_speaking_sessions := 0;
     p_is_currently_speaking := false |}.

Definition bob : Participant :=
  {| p_id := "p-bob"; p_meeting_id := "m-1"; p_name := "Bob";
     p_total_speaking_time := 0; p_speaking_sessions := 0;
     p_is_currently_speaking := false |}.

Definition standup : Db :=
  {| meetings := [ {| m_id := "m-1"; m_title := "Standup"; m_created_by := "u-1";
                      m_is_active := true; m_created_at := 0;
                      m_ended_at := None |} ];
     participants := [alice; bob];
     speaking_sessions := [];
     questions := [] |}.

Definition idle : TimerState :=
  {| currentSessionTime := 0; activeSessionId := None |}.

Definition answering (sc : list response) (d : Db) : World :=
  {| store := d; script := sc |}.

Definition generated (i : uuid) (t : timestamp) : Generated :=
  {| gen_id := i; gen_now := t |}.

(** Alice starts to speak at 1000. *)
Definition alice_started : TimerState * option toast * World :=
  startSpeaking alice "m-1" 1000 (generated "s-1" 1000) idle (answering [] standup).

(** Five seconds later she stops, and the store refuses the update of the
    ledger; the call on the participants goes through. *)
Definition alice_stop_lost : TimerState * option toast * World :=
  let '(st, _, w) := alice_started in
  stopSpeaking (card "p-alice" (store w) alice) 6000
    (Nat.iter 5 (tick (card "p-alice" (store w) alice)) st)
    (answering [Reject] (store w)).

(** She starts again at 9000; this time the store refuses the update that
    closes the sessions found open. *)
Definition alice_restarted : TimerState * option toast * World :=
  let '(st, _, w) := alice_stop_lost in
  startSpeaking (card "p-alice" (store w) alice) "m-1" 9000 (generated "s-2" 9000) st
    (answering [Accept; Accept; Reject] (store w)).

(** A field left empty: nothing but white space. *)
Definition blank (s : string) : bool := negb (truthy (trim s)).

(** Alice and Bob both flagged as speaking, as two clients racing on
    [startSpeaking] can leave them. *)
Definition both_speaking : list Participant :=
  [ set_stats true 40 2 alice; set_stats true 15 1 bob ].

(** ** Totals over time *)

(** The same participant, with totals at least as large. *)
Definition keeps (r r' : Participant) : Prop :=
  p_id r' = p_id r /\
  p_total_speaking_time r <= p_total_speaking_time r' /\
  p_speaking_sessions r <= p_speaking_sessions r'.

(** Every row of [before] is still there, in place, with totals at least as
    large; the rows that came after it carry non-negative totals. *)
Definition grows (before after : list Participant) : Prop :=
  exists l ext,
    after = l ++ ext /\
    Forall2 keeps before l /\
    Forall (fun r => 0 <= p_total_speaking_time r /\ 0 <= p_speaking_sessions r) ext.

Definition timers_nonneg (timers : gmap string TimerState) : Prop :=
  map_Forall (fun _ st => 0 <= currentSessionTime st) timers.

(** What the leaderboard reads of the participants. *)
Definition aggregates (d : Db) : list (uuid * Z * Z) :=
  map (fun p => (p_id p, p_total_speaking_time p, p_speaking_sessions p))
      (participants d).

(** A computation whose every run relates the store before to the store
    after, whatever the environment answers. *)
Definition preserves {A} (R : Db -> Db -> Prop) (c : Remote A) : Prop :=
  forall w, R (store w) (store (snd (c w))).

(** The store after shows the same identifiers and totals as before. *)
Definition quiet {A} (c : Remote A) : Prop :=
  preserves (fun d d' => aggregates d' = aggregates d) c.

(** The rows a creation adds carry zero totals. *)
Definition created_at_zero (r : Participant) : Prop :=
  p_total_speaking_time r = 0 /\ p_speaking_sessions r = 0.

(** Alice's card after her start, and her timer five ticks later. *)
Definition alice_speaking : Participant :=
  card "p-alice" (store (snd alice_started)) alice.

Definition alice_after_five_ticks : TimerState :=
  Nat.iter 5 (tick alice_speaking) (fst (fst alice_started)).

(** The dialog filled in for a second meeting, and the identifiers the store
    will hand out for its participants. *)
Definition retro_form : DialogState :=
  {| dlg_loading := false; dlg_title := "Retro";
     dlg_participants := ["Carol"; " "] |}.

Definition retro_ids (i : nat) : Generated :=
  generated (String.append "p-retro-" (show_nat i)) 50000.

From Stdlib Require Import DecimalPos DecimalZ Permutation Sorted.

(** * The rest of the components *)

(** ** formatTime (ParticipantTimer, ActiveMeetingView, ParticipantsNameList)

    [Number.prototype.toString] on an integer is its decimal writing, with a
    minus sign below zero; [padStart] is taken at a one-character filler,
    the only way the code calls it. [Math.floor(seconds / 60)] is the floor
    division of [Z]; [%] keeps the sign of the dividend, as [Z.rem]. The
    counts are integers far below the size at which JavaScript switches to
    the exponent notation. *)

Definition toString (n : Z) : string :=
  NilZero.string_of_int (Z.to_int n).

Definition padStart (targetLength : nat) (filler : ascii) (s : string) : string :=
  String.append
    (string_of_list_ascii (repeat filler (targetLength - String.length s)))
    s.

Definition formatTime (seconds : Z) : string :=
  let mins := seconds / 60 in
  let secs := Z.rem seconds 60 in
  String.append (toString mins)
    (String.append ":" (padStart 2 "0"%char (toString secs))).

(** The seconds of a minute, as [formatTime] writes them. *)
Definition seconds_field (k : nat) : string :=
  padStart 2 "0"%char (toString (Z.of_nat k)).

(** The large figure on a timer card. *)
Definition timer_display (participant : Participant) (st : TimerState) : string :=
  if p_is_currently_speaking participant
  then formatTime (currentSessionTime st)
  else formatTime (p_total_speaking_time participant).

(** ** Ordering rows

    [Array.prototype.sort] with the comparator [(a, b) => b.total - a.total]
    and [ORDER BY ... DESC]: largest first, rows with equal keys in the order
    they came in (the sort of JavaScript is stable; the store is free on
    ties, and is taken to keep the order of the table). *)

Fixpoint insert_desc {A} (key : A -> Z) (x : A) (l : list A) : list A :=
  match l with
  | [] => [x]
  | y :: l' => if Z.ltb (key x) (key y) then y :: insert_desc key x l' else x :: l
  end.

Definition sort_desc {A} (key : A -> Z) (l : list A) : list A :=
  fold_right (insert_desc key) [] l.

(** ** ActiveMeetingView: what the view holds and shows *)

Record ViewState := {
  view_participants : list Participant;
  view_loading : bool
}.

Definition fetchParticipants (meeting_id : uuid) (st : ViewState)
  : Remote (ViewState * option toast) :=
  r <- request (fun d => Some
        (sort_desc p_total_speaking_time
           (List.filter (fun p => String.eqb (p_meeting_id p) meeting_id)
                        (participants d)), d)) ;;
  match r with
  | Data data => ret ({| view_participants := data; view_loading := false |}, None)
  | Error =>
      ret ({| view_participants := view_participants st; view_loading := false |},
           Some (Toast "Error" "Failed to load participants"))
  end.

Definition getLiveSeconds (localCounters : gmap string Counter) (now : Z)
    (p : Participant) : Z :=
  match localCounters !! p_id p with
  | Some counter =>
      if p_is_currently_speaking p then (now - startTime counter) / 1000 else 0
  | None => 0
  end.

(** The total a row of the leaderboard shows. *)
Definition displayTime (localCounters : gmap string Counter) (now : Z)
    (p : Participant) : Z :=
  if p_is_currently_speaking p
  then or_zero (p_total_speaking_time p) + getLiveSeconds localCounters now p
  else or_zero (p_total_speaking_time p).

Definition withLive (localCounters : gmap string Counter) (now : Z)
    (shown : list Participant) : list (Participant * Z) :=
  map (fun p => (p, displayTime localCounters now p)) shown.

(** [Math.max(1, ...totals)], the full width of the progress bars. *)
Definition maxTotal (rows : list (Participant * Z)) : Z :=
  fold_right Z.max 1 (map snd rows).

Definition leaderboard (localCounters : gmap string Counter) (now : Z)
    (shown : list Participant) : list (Participant * Z) :=
  sort_desc snd (withLive localCounters now shown).

(** ** ParticipantsNameList: removing a participant

    [speaking_sessions.participant_id] is declared ON DELETE CASCADE: the
    sessions of a deleted participant go with it. *)

Definition delete_participant (participantId : uuid) (d : Db) : Db :=
  {| meetings := meetings d;
     participants :=
       List.filter (fun p => negb (String.eqb (p_id p) participantId)) (participants d);
     speaking_sessions :=
       List.filter (fun s => negb (String.eqb (s_participant_id s) participantId))
                   (speaking_sessions d);
     questions := questions d |}.

Definition removeParticipant (participantId : uuid) : Remote (option toast) :=
  r <- request (fun d => Some (tt, delete_participant participantId d)) ;;
  match r with
  | Error => ret (Some (Toast "Error" "Failed to remove participant"))
  | Data _ => ret (Some (Toast "Success" "Participant removed successfully"))
  end.

(** ** CreateMeetingDialog: the rows of names *)

Module CreateMeetingDialog.

Definition addParticipant (participants : list string) : list string :=
  participants ++ [""].

(** [participants.filter((_, i) => i !== index)] *)
Fixpoint filter_index (keep : nat -> bool) (i : nat) (l : list string) : list string :=
  match l with
  | [] => []
  | x :: l' =>
      if keep i then x :: filter_index keep (S i) l' else filter_index keep (S i) l'
  end.

Definition removeParticipant (index : nat) (participants : list string) : list string :=
  if (1 <? length participants)%nat
  then filter_index (fun i => negb (i =? index)%nat) 0 participants
  else participants.

(** The edits the dialog offers. An input is rendered for each row, with
    the index of that row, so [updateParticipant] writes inside the
    list. *)
Inductive edit : list string -> list string -> Prop :=
| edit_add participants :
    edit participants (addParticipant participants)
| edit_remove index participants :
    edit participants (removeParticipant index participants)
| edit_update index name (participants : list string) :
    (index < length participants)%nat ->
    edit participants (<[index := name]> participants).

End CreateMeetingDialog.

(** ** MeetingDashboard *)

(** A meeting as the dashboard selects it, with its participants embedded. *)
Record DashboardMeeting := {
  dm_meeting : Meeting;
  dm_participants : list Participant
}.

Record DashboardState := {
  dash_meetings : list DashboardMeeting;
  dash_activeMeeting : option DashboardMeeting;
  dash_showCreateDialog : bool;
  dash_loading : bool
}.

(** [select("*, participants(*)").order("created_at", {ascending: false})]
    as answered to [user]: the meetings the policy shows that user, latest
    first, each with its participants. *)
Definition select_meetings (user : option uuid) (d : Db) : list DashboardMeeting :=
  map (fun m =>
         {| dm_meeting := m;
            dm_participants :=
              List.filter (fun p => String.eqb (p_meeting_id p) (m_id m))
                          (participants d) |})
      (sort_desc m_created_at (List.filter (own_meeting user) (meetings d))).

Definition fetchMeetings (user : option uuid) (st : DashboardState)
  : Remote (DashboardState * option toast) :=
  r <- request (fun d => Some (select_meetings user d, d)) ;;
  match r with
  | Data data =>
      ret ({| dash_meetings := data;
              (* Find active meeting *)
              dash_activeMeeting := find (fun m => m_is_active (dm_meeting m)) data;
              dash_showCreateDialog := dash_showCreateDialog st;
              dash_loading := false |}, None)
  | Error =>
      ret ({| dash_meetings := dash_meetings st;
              dash_activeMeeting := dash_activeMeeting st;
              dash_showCreateDialog := dash_showCreateDialog st;
              dash_loading := false |},
           Some (Toast "Error" "Failed to load meetings"))
  end.

(** ** QuestionsPanel: the list *)

Definition set_is_answered (b : bool) (q : Question) : Question :=
  {| q_id := q_id q; q_meeting_id := q_meeting_id q;
     q_question := q_question q; q_asker_name := q_asker_name q;
     q_is_answered := b; q_created_at := q_created_at q |}.

Definition toggleAnswered (questionId : uuid) (isAnswered : bool)
  : Remote (option toast) :=
  r <- request (fun d => Some (tt, with_questions
       (update_where (fun q => String.eqb (q_id q) questionId)
          (set_is_answered (negb isAnswered)) (questions d)) d)) ;;
  match r with
  | Error => ret (Some (Toast "Error" "Failed to update question status"))
  | Data _ =>
      ret (Some (Toast (if isAnswered then "Question marked as unanswered"
                        else "Question marked as answered")
                       "Question status updated"))
  end.

Definition unansweredCount (shown : list Question) : nat :=
  length (List.filter (fun q => negb (q_is_answered q)) shown).

(** Who a question is shown to come from: the name, when there is a
    non-empty one. *)
Inductive asker := Named (name : string) | Anonymous.

Definition shown_asker (q : Question) : asker :=
  match q_asker_name q with
  | Some name => if truthy name then Named name else Anonymous
  | None => Anonymous
  end.

(** ** Predicates for the further properties *)

(** The first awaited call of a run is not refused. *)
Definition first_accepted (sc : list response) : bool :=
  match sc with
  | Reject :: _ => false
  | _ => true
  end.

(** The sessions of a meeting that the ledger shows as open. *)
Definition open_sessions_in (meetingId : uuid) (rows : list SpeakingSession)
  : list SpeakingSession :=
  List.filter (fun s => String.eqb (s_meeting_id s) meetingId
                        && is_null (s_ended_at s)) rows.

(** Every session of the ledger belongs to a participant of the store. *)
Definition sessions_refer (d : Db) : Prop :=
  forall s, In s (speaking_sessions d) ->
    exists p, In p (participants d) /\ p_id p = s_participant_id s.

(** The names of the dialog that [handleCreate] keeps. *)
Definition validParticipants (st : DialogState) : list string :=
  List.filter (fun p => negb (String.eqb (trim p) "")) (dlg_participants st).

(** The row [handleCreate] inserts for the meeting. *)
Definition new_meeting (u : uuid) (gm : Generated) (st : DialogState) : Meeting :=
  {| m_id := gen_id gm; m_title := trim (dlg_title st); m_created_by := u;
     m_is_active := true; m_created_at := gen_now gm; m_ended_at := None |}.

(** The row [submitQuestion] inserts. *)
Definition new_question (meetingId : uuid) (g : Generated) (st : QuestionForm) : Question :=
  {| q_id := gen_id g; q_meeting_id := meetingId;
     q_question := trim (newQuestion st);
     q_asker_name := if isAnonymous st then None else Some (trim (askerName st));
     q_is_answered := false; q_created_at := gen_now g |}.

(** ** More of the stand-up, and a second meeting beside it *)

Definition carol : Participant :=
  {| p_id := "p-carol"; p_meeting_id := "m-0"; p_name := "Carol";
     p_total_speaking_time := 30; p_speaking_sessions := 2;
     p_is_currently_speaking := true |}.

Definition carol_session : SpeakingSession :=
  {| s_id := "s-0"; s_participant_id := "p-carol"; s_meeting_id := "m-0";
     s_started_at := 500; s_ended_at := None; s_duration := None |}.

Definition pending_question : Question :=
  {| q_id := "q-0"; q_meeting_id := "m-1"; q_question := "Why?";
     q_asker_name := None; q_is_answered := false; q_created_at := 900 |}.

(** The stand-up next to an older meeting in which Carol is speaking, with
    one question pending. *)
Definition two_meetings : Db :=
  {| meetings :=
       {| m_id := "m-0"; m_title := "Planning"; m_created_by := "u-1";
          m_is_active := false; m_created_at := -100; m_ended_at := Some 0 |}
       :: meetings standup;
     participants := carol :: participants standup;
     speaking_sessions := [carol_session];
     questions := [pending_question] |}.

(** Bob tries to start while Alice speaks, and the store refuses the new
    session. *)
Definition bob_start_refused : TimerState * option toast * World :=
  startSpeaking bob "m-1" 4000 (generated "s-2" 4000) idle
    (answering [Accept; Accept; Accept; Reject] (store (snd alice_started))).

(** A click on Alice's name in the list, and the list as fetched after it. *)
Definition alice_clicked : ToggleResult * World :=
  toggleParticipantSpeaking [alice; bob] "m-1" "p-alice" 1000 (generated "s-1" 1000)
    None (answering [] standup).

Definition typed_name : NameListState :=
  {| newParticipantName := "  Dan "; isAdding := false; activeParticipant := None |}.

Definition typed_question : QuestionForm :=
  {| newQuestion := " When do we ship? "; askerName := "Bob "; isAnonymous := false |}.

Definition dashboard_opened : DashboardState :=
  {| dash_meetings := []; dash_activeMeeting := None;
     dash_showCreateDialog := false; dash_loading := true |}.

(** ** One client at work

    A browser tab on a meeting: the store it talks to, the list of
    participants as last fetched, from which the timer cards and the names
    are rendered, and the local state of the cards, one per participant
    (React keeps them by [participant.id]; a card never rendered before
    starts from [useState(0)], [useState(null)]). A card acts on its row of
    the list: the stored row once the re-fetch that follows an operation
    ([onUpdate], the change feed) has come back, an older one until then. *)

Record Client := {
  cl_store : Db;
  cl_shown : list Participant;
  cl_timers : gmap string TimerState
}.

Definition timer_of (timers : gmap string TimerState) (participant_id : uuid) : TimerState :=
  default idle (timers !! participant_id).

(** What happens in one step: the list comes back from the store, a card
    ticks, Start or Stop is clicked on a card, a name is clicked, a
    participant is added, a meeting is created or ended. *)
Inductive event :=
| Fetched
| Ticked (p : Participant)
| Started (p : Participant)
| Stopped (p : Participant)
| Clicked
| Added
| Created
| Ended.

Inductive step : Client -> event -> Client -> Prop :=
| step_fetch c meeting_id view sc view' t w' :
    view_participants view = cl_shown c ->
    fetchParticipants meeting_id view (answering sc (cl_store c)) = (view', t, w') ->
    step c Fetched
      {| cl_store := store w'; cl_shown := view_participants view';
         cl_timers := cl_timers c |}
| step_tick c p :
    In p (cl_shown c) ->
    step c (Ticked p)
      {| cl_store := cl_store c; cl_shown := cl_shown c;
         cl_timers := <[p_id p := tick p (timer_of (cl_timers c) (p_id p))]>
                        (cl_timers c) |}
| step_startSpeaking c p meetingId now g sc st' t w' :
    In p (cl_shown c) ->
    startSpeaking p meetingId now g (timer_of (cl_timers c) (p_id p))
      (answering sc (cl_store c)) = (st', t, w') ->
    step c (Started p)
      {| cl_store := store w'; cl_shown := cl_shown c;
         cl_timers := <[p_id p := st']> (cl_timers c) |}
| step_stopSpeaking c p now sc st' t w' :
    In p (cl_shown c) ->
    stopSpeaking p now (timer_of (cl_timers c) (p_id p))
      (answering sc (cl_store c)) = (st', t, w') ->
    step c (Stopped p)
      {| cl_store := store w'; cl_shown := cl_shown c;
         cl_timers := <[p_id p := st']> (cl_timers c) |}
| step_toggle c meetingId participantId now g active sc r w' :
    toggleParticipantSpeaking (cl_shown c) meetingId participantId now g active
      (answering sc (cl_store c)) = (r, w') ->
    step c Clicked
      {| cl_store := store w'; cl_shown := cl_shown c; cl_timers := cl_timers c |}
| step_addParticipant c meetingId g form sc form' t w' :
    addParticipant meetingId g form (answering sc (cl_store c)) = (form', t, w') ->
    step c Added
      {| cl_store := store w'; cl_shown := cl_shown c; cl_timers := cl_timers c |}
| step_handleCreate c user now gm gp form sc form' t w' :
    handleCreate user now gm gp form (answering sc (cl_store c)) = (form', t, w') ->
    step c Created
      {| cl_store := store w'; cl_shown := cl_shown c; cl_timers := cl_timers c |}
| step_handleEndMeeting c meetingId now sc t w' :
    handleEndMeeting meetingId now (answering sc (cl_store c)) = (t, w') ->
    step c Ended
      {| cl_store := store w'; cl_shown := cl_shown c; cl_timers := cl_timers c |}.

(** The sequences of steps each of which [ok] allows where it is taken. *)
Inductive run (ok : Client -> event -> Prop) : Client -> Client -> Prop :=
| run_done c : run ok c c
| run_step c e c1 c' : ok c e -> step c e c1 -> run ok c1 c' -> run ok c c'.

(** No restriction: any step at any time. *)
Definition any_time (c : Client) (e : event) : Prop := True.

(** Stop is clicked on cards that show the stored row only: not before the
    list has come back after the last write on that row. *)
Definition stop_on_stored_row (c : Client) (e : event) : Prop :=
  match e with
  | Stopped p => In p (participants (cl_store c))
  | _ => True
  end.

(** A client that opens the stand-up, and the clients it becomes as the list
    arrives, Alice starts, the list arrives again, her card ticks once, and
    she stops; then as Stop is clicked once more on her card before the list
    has come back. *)
Definition client_opened : Client :=
  {| cl_store := standup; cl_shown := []; cl_timers := ∅ |}.

Definition client_listed : Client :=
  {| cl_store := standup; cl_shown := [alice; bob]; cl_timers := ∅ |}.

Definition client_started : Client :=
  {| cl_store := store (snd alice_started);
     cl_shown := [alice; bob];
     cl_timers := <[ "p-alice" := fst (fst alice_started) ]> ∅ |}.

Definition client_relisted : Client :=
  {| cl_store := cl_store client_started;
     cl_shown := [alice_speaking; bob];
     cl_timers := cl_timers client_started |}.

Definition client_ticked : Client :=
  {| cl_store := cl_store client_relisted;
     cl_shown := cl_shown client_relisted;
     cl_timers := <[ "p-alice" := tick alice_speaking
                                    (timer_of (cl_timers client_relisted) "p-alice") ]>
                    (cl_timers client_relisted) |}.

Definition alice_stopped : TimerState * option toast * World :=
  stopSpeaking alice_speaking 2000 (timer_of (cl_timers client_ticked) "p-alice")
    (answering [] (cl_store client_ticked)).

Definition client_stopped : Client :=
  {| cl_store := store (snd alice_stopped);
     cl_shown := cl_shown client_ticked;
     cl_timers := <[ "p-alice" := fst (fst alice_stopped) ]> (cl_timers client_ticked) |}.

Definition alice_stopped_again : TimerState * option toast * World :=
  stopSpeaking alice_speaking 2500 (timer_of (cl_timers client_stopped) "p-alice")
    (answering [] (cl_store client_stopped)).

Definition client_stopped_again : Client :=
  {| cl_store := store (snd alice_stopped_again);
     cl_shown := cl_shown client_stopped;
     cl_timers := <[ "p-alice" := fst (fst alice_stopped_again) ]>
                    (cl_timers client_stopped) |}.

(** A second user, who has a meeting of their own in progress beside the
    stand-up of the first. *)
Definition two_users : Db :=
  {| meetings :=
       meetings standup ++
       [ {| m_id := "m-9"; m_title := "Board"; m_created_by := "u-2";
            m_is_active := true; m_created_at := 10; m_ended_at := None |} ];
     participants := participants standup;
     speaking_sessions := [];
     questions := [] |}.
(** * Properties *)

(** ** The store *)

Lemma fresh_spec {A} (key : A -> uuid) i rows :
  fresh key i rows = true <-> forall x, In x rows -> key x <> i.
Proof.
  unfold fresh. rewrite negb_true_iff. split.
  - intros H x Hx Heq.
    assert (E : existsb (fun y => String.eqb (key y) i) rows = true).
    { apply existsb_exists. exists x. split; [exact Hx|]. now apply String.eqb_eq. }
    congruence.
  - intros H. destruct (existsb _ rows) eqn:E; [|reflexivity].
    apply existsb_exists in E. destruct E as [x [Hx Heq]].
    apply String.eqb_eq in Heq. now elim (H x Hx).
Qed.

(** A column that the patch does not write reads the same after the update. *)
Lemma update_where_field {A B} (f : A -> B) (cond : A -> bool) (patch : A -> A) (rows : list A) :
  (forall r, f (patch r) = f r) ->
  map f (update_where cond patch rows) = map f rows.
Proof.
  intros Hk. unfold update_where. rewrite map_map. apply map_ext.
  intros r. destruct (cond r); [apply Hk|reflexivity].
Qed.

Lemma existsb_on_key {A} (key : A -> uuid) (f : uuid -> bool) (l : list A) :
  existsb (fun x => f (key x)) l = existsb f (map key l).
Proof.
  induction l as [|a l IH]; simpl; [reflexivity|]. now rewrite IH.
Qed.

Lemma fresh_map_key {A} (key : A -> uuid) i (l l' : list A) :
  map key l = map key l' -> fresh key i l = fresh key i l'.
Proof.
  intros H. unfold fresh. f_equal.
  rewrite (existsb_on_key key (fun k => String.eqb k i) l).
  rewrite (existsb_on_key key (fun k => String.eqb k i) l').
  now rewrite H.
Qed.

Lemma insert_row_fresh {A} (key : A -> uuid) r (rows : list A) :
  fresh key (key r) rows = true -> insert_row key r rows = Some (rows ++ [r]).
Proof.
  unfold fresh, insert_row. rewrite negb_true_iff. now intros ->.
Qed.

Lemma update_where_none {A} (cond : A -> bool) (patch : A -> A) (rows : list A) :
  (forall r, In r rows -> cond r = false) -> update_where cond patch rows = rows.
Proof.
  intros H. unfold update_where. rewrite <- (List.map_id rows) at 2.
  apply map_ext_in. intros r Hr. now rewrite (H r Hr).
Qed.

Lemma In_update_where {A} (cond : A -> bool) (patch : A -> A) (rows : list A) r :
  In r rows -> In (if cond r then patch r else r) (update_where cond patch rows).
Proof.
  intros H. unfold update_where.
  exact (in_map (fun x => if cond x then patch x else x) rows r H).
Qed.

Lemma update_where_hit {A} (cond : A -> bool) (patch : A -> A) (rows : list A) r' :
  In r' (update_where cond patch rows) ->
  exists r, In r rows /\ r' = (if cond r then patch r else r).
Proof.
  unfold update_where. rewrite in_map_iff. intros [r [<- Hr]]. now exists r.
Qed.

Lemma filter_map_none {A B} (f : B -> bool) (g : A -> B) (l : list A) :
  (forall x, In x l -> f (g x) = false) -> List.filter f (map g l) = [].
Proof.
  induction l as [|a l IH]; intros H; [reflexivity|].
  cbn [map List.filter]. rewrite (H a (or_introl eq_refl)).
  apply IH. intros x Hx. apply H. right. exact Hx.
Qed.

(** ** The primary key *)

Lemma fresh_app {A} (key : A -> uuid) i (l l' : list A) :
  fresh key i (l ++ l') = fresh key i l && fresh key i l'.
Proof. unfold fresh. now rewrite existsb_app, negb_orb. Qed.

Lemma unique_snoc {A} (key : A -> uuid) (rows : list A) r :
  unique key rows = true -> fresh key (key r) rows = true ->
  unique key (rows ++ [r]) = true.
Proof.
  induction rows as [|a rows IH]; [reflexivity|].
  cbn [unique app]. rewrite andb_true_iff. intros [Ha Hu] Hr.
  unfold fresh in Hr. cbn [existsb] in Hr. rewrite negb_orb in Hr.
  apply andb_true_iff in Hr. destruct Hr as [Hne Hr].
  rewrite fresh_app, Ha, (IH Hu Hr). unfold fresh. cbn [existsb].
  rewrite String.eqb_sym, orb_false_r, Hne. reflexivity.
Qed.

Lemma unique_map_key {A} (key : A -> uuid) (l l' : list A) :
  map key l = map key l' -> unique key l = unique key l'.
Proof.
  revert l'. induction l as [|a l IH]; intros [|a' l'] H; try discriminate;
    [reflexivity|].
  cbn [map] in H. injection H as Ha Hl. cbn [unique].
  rewrite Ha, (fresh_map_key key (key a') l l' Hl), (IH l' Hl). reflexivity.
Qed.

Lemma unique_inj {A} (key : A -> uuid) (rows : list A) r r' :
  unique key rows = true -> In r rows -> In r' rows -> key r = key r' -> r = r'.
Proof.
  induction rows as [|a rows IH]; [contradiction|].
  cbn [unique]. rewrite andb_true_iff. intros [Ha Hu] [-> | Hr] [-> | Hr'] Hk.
  - reflexivity.
  - apply fresh_spec with (x := r') in Ha; [|exact Hr']. congruence.
  - apply fresh_spec with (x := r) in Ha; [|exact Hr]. congruence.
  - now apply IH.
Qed.

Lemma insert_rows_spec {A} (key : A -> uuid) (news rows rows' : list A) :
  insert_rows key news rows = Some rows' ->
  rows' = rows ++ news /\ (unique key rows = true -> unique key rows' = true).
Proof.
  revert rows rows'. induction news as [|r news IH]; intros rows rows' H.
  - injection H as <-. rewrite app_nil_r. auto.
  - cbn [insert_rows] in H. unfold insert_row in H.
    destruct (existsb _ rows) eqn:E; [discriminate|].
    apply IH in H. destruct H as [-> Hu]. rewrite <- app_assoc. split; [reflexivity|].
    intros Hrows. rewrite app_assoc. apply Hu. apply unique_snoc; [exact Hrows|].
    unfold fresh. now rewrite E.
Qed.

(** ** Remote calls that the environment accepts *)

Lemma all_accept_tl l : all_accept l = true -> all_accept (tl l) = true.
Proof.
  destruct l as [|r l]; [reflexivity|]. simpl. now rewrite andb_true_iff.
Qed.

Lemma request_accept {A} (f : Db -> option (A * Db)) w :
  all_accept (script w) = true ->
  request f w =
    match f (store w) with
    | Some (a, d) => (Data a, {| store := d; script := tl (script w) |})
    | None => (Error, {| store := store w; script := tl (script w) |})
    end.
Proof.
  unfold request. destruct (script w) as [|[] l]; simpl; try reflexivity.
  discriminate.
Qed.

(** A request never touches the store when it is refused, and consumes one
    response in every case. *)
Lemma request_script {A} (f : Db -> option (A * Db)) w :
  script (snd (request f w)) = tl (script w).
Proof.
  unfold request. destruct (script w) as [|[] l]; simpl;
    destruct (f (store w)) as [[a d]|]; reflexivity.
Qed.

Create HintDb remote.
#[local] Hint Resolve all_accept_tl : remote.

(** Resolve the next awaited call of the goal when its response is an
    acceptance. *)
Ltac accept_request :=
  rewrite request_accept by (cbn [store script]; auto 8 with remote);
  cbn [store script fst snd meetings participants speaking_sessions questions
       with_meetings with_participants with_sessions with_questions].

(** ** ParticipantTimer.startSpeaking, all calls accepted *)

Lemma startSpeaking_accepted participant meetingId now g st w :
  all_accept (script w) = true ->
  fresh s_id (gen_id g) (speaking_sessions (store w)) = true ->
  exists rest,
    all_accept rest = true /\
    startSpeaking participant meetingId now g st w =
      ({| currentSessionTime := 0; activeSessionId := Some (gen_id g) |}, None,
       {| store :=
            {| meetings := meetings (store w);
               participants :=
                 update_where (fun r => String.eqb (p_id r) (p_id participant))
                   (set_is_currently_speaking true)
                   (update_where (fun r => String.eqb (p_meeting_id r) meetingId)
                      (set_is_currently_speaking false) (participants (store w)));
               speaking_sessions :=
                 update_where
                   (fun s => existsb (String.eqb (s_id s))
                               (open_session_ids meetingId (speaking_sessions (store w))))
                   (set_ended_at now) (speaking_sessions (store w))
                 ++ [new_session (p_id participant) meetingId g];
               questions := questions (store w) |};
          script := rest |}).
Proof.
  intros Hacc Hfresh.
  unfold startSpeaking, bind, ret.
  accept_request. accept_request.
  fold (open_session_ids meetingId (speaking_sessions (store w))).
  set (ids := open_session_ids meetingId (speaking_sessions (store w))).
  set (closed := update_where (fun s => existsb (String.eqb (s_id s)) ids)
                   (set_ended_at now) (speaking_sessions (store w))).
  assert (Hfresh' : fresh s_id (gen_id g) closed = true).
  { rewrite <- Hfresh. apply fresh_map_key. apply update_where_field. reflexivity. }
  destruct ids as [|i ids'] eqn:Eids.
  - assert (Hclosed : closed = speaking_sessions (store w)).
    { apply update_where_none. reflexivity. }
    accept_request. cbn [new_session s_id] in *.
    rewrite (insert_row_fresh s_id (new_session (p_id participant) meetingId g)) by exact Hfresh.
    accept_request. eexists. split; [|rewrite Hclosed; reflexivity].
    auto 8 with remote.
  - accept_request. accept_request.
    fold closed.
    rewrite (insert_row_fresh s_id (new_session (p_id participant) meetingId g)) by exact Hfresh'.
    accept_request. eexists. split; [|reflexivity].
    auto 8 with remote.
Qed.

(** ** ParticipantTimer.stopSpeaking, all calls accepted *)

Lemma stopSpeaking_accepted participant now st w :
  all_accept (script w) = true ->
  exists rest,
    all_accept rest = true /\
    stopSpeaking participant now st w =
      ({| currentSessionTime := 0; activeSessionId := None |}, None,
       {| store :=
            {| meetings := meetings (store w);
               participants :=
                 update_where (fun r => String.eqb (p_id r) (p_id participant))
                   (set_stats false
                      (p_total_speaking_time participant + currentSessionTime st)
                      (p_speaking_sessions participant + 1))
                   (participants (store w));
               speaking_sessions :=
                 match held_session st with
                 | Some sid =>
                     update_where (fun s => String.eqb (s_id s) sid)
                       (set_ended_at_duration now (currentSessionTime st))
                       (speaking_sessions (store w))
                 | None => speaking_sessions (store w)
                 end;
               questions := questions (store w) |};
          script := rest |}).
Proof.
  intros Hacc. unfold stopSpeaking, bind, ret.
  destruct (held_session st) as [sid|].
  - accept_request. accept_request. eexists. split; [|reflexivity].
    auto 8 with remote.
  - accept_request. eexists. split; [|reflexivity]. auto 8 with remote.
Qed.

(** ** Mutual exclusion after a start *)

Lemma clear_then_set_silent rows pid m :
  fresh p_id pid rows = true ->
  List.filter (speaking_in m)
    (update_where (fun r => String.eqb (p_id r) pid)
       (set_is_currently_speaking true)
       (update_where (fun r => String.eqb (p_meeting_id r) m)
          (set_is_currently_speaking false) rows)) = [].
Proof.
  induction rows as [|a rows IH]; [reflexivity|].
  unfold fresh. cbn [existsb]. rewrite negb_orb, andb_true_iff.
  intros [Ha Hrows]. specialize (IH Hrows).
  unfold update_where in *. cbn [map List.filter].
  rewrite IH. apply negb_true_iff in Ha.
  destruct (String.eqb (p_meeting_id a) m) eqn:Em; cbn [p_id set_is_currently_speaking];
    rewrite Ha; unfold speaking_in;
    cbn [set_is_currently_speaking p_meeting_id p_is_currently_speaking];
    rewrite Em; reflexivity.
Qed.

Lemma clear_then_set_sole rows r m :
  unique p_id rows = true ->
  In r rows ->
  p_meeting_id r = m ->
  List.filter (speaking_in m)
    (update_where (fun x => String.eqb (p_id x) (p_id r))
       (set_is_currently_speaking true)
       (update_where (fun x => String.eqb (p_meeting_id x) m)
          (set_is_currently_speaking false) rows))
  = [set_is_currently_speaking true r].
Proof.
  intros Hu Hin Hm. induction rows as [|a rows IH]; [contradiction|].
  cbn [unique] in Hu. apply andb_true_iff in Hu. destruct Hu as [Hfa Hu].
  destruct Hin as [-> | Hin].
  - pose proof (clear_then_set_silent rows (p_id r) m Hfa) as Htail.
    unfold update_where in *. cbn [map List.filter]. rewrite Htail.
    rewrite Hm, String.eqb_refl. cbn [p_id set_is_currently_speaking].
    rewrite String.eqb_refl. unfold speaking_in.
    cbn [set_is_currently_speaking p_meeting_id p_is_currently_speaking].
    rewrite Hm, String.eqb_refl. reflexivity.
  - specialize (IH Hu Hin).
    assert (Hne : String.eqb (p_id a) (p_id r) = false).
    { apply String.eqb_neq. intros Heq.
      apply fresh_spec with (x := r) in Hfa; [|exact Hin]. congruence. }
    unfold update_where in *. cbn [map List.filter]. rewrite IH.
    destruct (String.eqb (p_meeting_id a) m) eqn:Em;
      cbn [p_id set_is_currently_speaking]; rewrite Hne; unfold speaking_in;
      cbn [set_is_currently_speaking p_meeting_id p_is_currently_speaking];
      rewrite Em; reflexivity.
Qed.

(** C1. After a run of [startSpeaking] for a participant of the meeting in
    which every call is accepted, no error is raised and the participants of
    the meeting that are marked as speaking are exactly one row: the row of
    that participant, with the flag set. *)
Theorem startSpeaking_sole_speaker participant meetingId now g st w r :
  all_accept (script w) = true ->
  fresh s_id (gen_id g) (speaking_sessions (store w)) = true ->
  unique p_id (participants (store w)) = true ->
  In r (participants (store w)) ->
  p_id r = p_id participant ->
  p_meeting_id r = meetingId ->
  snd (fst (startSpeaking participant meetingId now g st w)) = None /\
  List.filter (speaking_in meetingId)
    (participants (store (snd (startSpeaking participant meetingId now g st w))))
  = [set_is_currently_speaking true r].
Proof.
  intros Hacc Hfresh Hu Hin Hid Hm.
  destruct (startSpeaking_accepted participant meetingId now g st w Hacc Hfresh)
    as [rest [_ ->]].
  cbn [fst snd store participants]. split; [reflexivity|].
  rewrite <- Hid. now apply clear_then_set_sole.
Qed.

(** ** The cleanup of stale sessions *)

Lemma open_session_listed meetingId rows s :
  In s rows -> s_meeting_id s = meetingId -> s_ended_at s = None ->
  existsb (String.eqb (s_id s)) (open_session_ids meetingId rows) = true.
Proof.
  intros Hin Hm Hopen. apply existsb_exists. exists (s_id s).
  split; [|apply String.eqb_refl].
  unfold open_session_ids. apply in_map. apply filter_In. split; [exact Hin|].
  rewrite Hm, Hopen, String.eqb_refl. reflexivity.
Qed.

(** Once the sessions found open in the meeting have been stamped, none of
    the meeting is open. *)
Lemma cleanup_leaves_none_open meetingId now rows :
  open_sessions_in meetingId
    (update_where (fun s => existsb (String.eqb (s_id s))
                              (open_session_ids meetingId rows))
       (set_ended_at now) rows) = [].
Proof.
  unfold open_sessions_in, update_where. apply filter_map_none.
  intros s Hs. destruct (existsb _ _) eqn:Ex.
  - cbn [set_ended_at s_meeting_id s_ended_at is_null]. apply andb_false_r.
  - destruct (String.eqb (s_meeting_id s) meetingId) eqn:Em; [|reflexivity].
    destruct (s_ended_at s) eqn:Ee; [reflexivity|].
    apply String.eqb_eq in Em.
    rewrite (open_session_listed meetingId _ s Hs Em Ee) in Ex. discriminate.
Qed.

(** C3. A run of [startSpeaking] in which every call is accepted closes each
    open session of the meeting by stamping [ended_at] and nothing else: the
    row is in the ledger with the instant of the cleanup as [ended_at] and
    with every other column, [duration] included, as it was, and the one
    session of the meeting that is open after the run is the new one. The
    durations of all rows of the ledger are what they were (the new row has
    none), and no participant's [total_speaking_time] or
    [speaking_sessions] changes. *)
Theorem startSpeaking_cleanup_stamps_ended_at_only participant meetingId now g st w :
  all_accept (script w) = true ->
  fresh s_id (gen_id g) (speaking_sessions (store w)) = true ->
  let d' := store (snd (startSpeaking participant meetingId now g st w)) in
  (forall s, In s (speaking_sessions (store w)) ->
             s_meeting_id s = meetingId -> s_ended_at s = None ->
             In (set_ended_at now s) (speaking_sessions d') /\
             exists s', In s' (speaking_sessions d') /\
               s_id s' = s_id s /\
               s_participant_id s' = s_participant_id s /\
               s_meeting_id s' = s_meeting_id s /\
               s_started_at s' = s_started_at s /\
               s_ended_at s' = Some now /\
               s_duration s' = s_duration s) /\
  open_sessions_in meetingId (speaking_sessions d')
    = [new_session (p_id participant) meetingId g] /\
  map s_duration (speaking_sessions d')
    = map s_duration (speaking_sessions (store w)) ++ [None] /\
  map p_total_speaking_time (participants d')
    = map p_total_speaking_time (participants (store w)) /\
  map p_speaking_sessions (participants d')
    = map p_speaking_sessions (participants (store w)).
Proof.
  intros Hacc Hfresh d'. subst d'.
  destruct (startSpeaking_accepted participant meetingId now g st w Hacc Hfresh)
    as [rest [_ ->]].
  cbn [fst snd store participants speaking_sessions].
  assert (Hclosed : forall s, In s (speaking_sessions (store w)) ->
            s_meeting_id s = meetingId -> s_ended_at s = None ->
            In (set_ended_at now s)
               (update_where
                  (fun x => existsb (String.eqb (s_id x))
                              (open_session_ids meetingId (speaking_sessions (store w))))
                  (set_ended_at now) (speaking_sessions (store w))
                ++ [new_session (p_id participant) meetingId g])).
  { intros s Hin Hm Hopen. apply in_or_app. left.
    pose proof (In_update_where
      (fun x => existsb (String.eqb (s_id x))
                  (open_session_ids meetingId (speaking_sessions (store w))))
      (set_ended_at now) _ s Hin) as H.
    cbv beta in H. now rewrite (open_session_listed meetingId _ s Hin Hm Hopen) in H. }
  split; [|split; [|split; [|split]]].
  - intros s Hin Hm Hopen. split; [now apply Hclosed|].
    exists (set_ended_at now s). split; [now apply Hclosed|].
    cbn [set_ended_at s_id s_participant_id s_meeting_id s_started_at s_ended_at
         s_duration].
    repeat split; reflexivity.
  - unfold open_sessions_in at 1. rewrite List.filter_app.
    fold (open_sessions_in meetingId
            (update_where
               (fun x => existsb (String.eqb (s_id x))
                           (open_session_ids meetingId (speaking_sessions (store w))))
               (set_ended_at now) (speaking_sessions (store w)))).
    rewrite cleanup_leaves_none_open.
    cbn [List.filter new_session s_meeting_id s_ended_at is_null app].
    rewrite String.eqb_refl. reflexivity.
  - rewrite map_app. cbn [map new_session s_duration]. f_equal.
    apply update_where_field. reflexivity.
  - rewrite !update_where_field; reflexivity.
  - rewrite !update_where_field; reflexivity.
Qed.

(** ** Stopping *)

(** What an accepted [stopSpeaking] writes on the participants: the row of
    the card's participant gets the card's totals plus the local count. *)
Lemma stopSpeaking_aggregate participant now st w :
  all_accept (script w) = true ->
  In participant (participants (store w)) ->
  let out := stopSpeaking participant now st w in
  snd (fst out) = None /\
  In (set_stats false (p_total_speaking_time participant + currentSessionTime st)
                      (p_speaking_sessions participant + 1) participant)
     (participants (store (snd out))) /\
  (forall r', In r' (participants (store (snd out))) ->
              p_id r' = p_id participant ->
              p_total_speaking_time r'
                = p_total_speaking_time participant + currentSessionTime st /\
              p_speaking_sessions r' = p_speaking_sessions participant + 1 /\
              p_is_currently_speaking r' = false).
Proof.
  intros Hacc Hin out. subst out.
  destruct (stopSpeaking_accepted participant now st w Hacc) as [rest [_ ->]].
  cbn [fst snd store participants speaking_sessions].
  split; [reflexivity|]. split.
  - pose proof (In_update_where
      (fun x => String.eqb (p_id x) (p_id participant))
      (set_stats false (p_total_speaking_time participant + currentSessionTime st)
                       (p_speaking_sessions participant + 1)) _ participant Hin) as H.
    cbv beta in H. now rewrite String.eqb_refl in H.
  - intros r' Hr' Hid. apply update_where_hit in Hr'.
    destruct Hr' as [r [Hr ->]].
    destruct (String.eqb (p_id r) (p_id participant)) eqn:E.
    + cbn [set_stats p_total_speaking_time p_speaking_sessions p_is_currently_speaking].
      auto.
    + apply String.eqb_neq in E. contradiction.
Qed.

(** What an accepted [stopSpeaking] writes on the ledger: the rows carrying
    the identifier the timer holds, and no other. *)
Lemma stopSpeaking_ledger participant now st w :
  all_accept (script w) = true ->
  speaking_sessions (store (snd (stopSpeaking participant now st w))) =
    match held_session st with
    | Some sid =>
        update_where (fun s => String.eqb (s_id s) sid)
          (set_ended_at_duration now (currentSessionTime st))
          (speaking_sessions (store w))
    | None => speaking_sessions (store w)
    end.
Proof.
  intros Hacc.
  destruct (stopSpeaking_accepted participant now st w Hacc) as [rest [_ ->]].
  reflexivity.
Qed.

(** While the card shows the participant as speaking, [n] ticks add [n]
    seconds to the local counter. *)
Lemma ticks_count participant st (n : nat) :
  p_is_currently_speaking participant = true ->
  currentSessionTime (Nat.iter n (tick participant) st)
  = currentSessionTime st + Z.of_nat n.
Proof.
  intros Hsp. induction n as [|n IH].
  - cbn [Nat.iter nat_rect]. rewrite Z.add_0_r. reflexivity.
  - rewrite Nat.iter_succ. unfold tick at 1. rewrite Hsp. cbn [currentSessionTime].
    rewrite IH, Nat2Z.inj_succ. unfold Z.succ. rewrite Z.add_assoc. reflexivity.
Qed.

(** C4. When every call is accepted, [stopSpeaking] with [n] seconds on the
    local counter closes the session the timer holds with [duration = n] and
    the instant of the click as [ended_at], its other columns as they were;
    every row with the held identifier reads so afterwards. It writes
    [total_speaking_time + n], [speaking_sessions + 1] and a cleared flag on
    the participant of the card, which shows the stored row; [n] is the
    ticked count, [started_at] is not read. *)
Theorem stopSpeaking_credits_local_count participant now st w :
  all_accept (script w) = true ->
  In participant (participants (store w)) ->
  let n := currentSessionTime st in
  let out := stopSpeaking participant now st w in
  snd (fst out) = None /\
  (forall s, In s (speaking_sessions (store w)) ->
             held_session st = Some (s_id s) ->
             In (set_ended_at_duration now n s) (speaking_sessions (store (snd out))) /\
             exists s', In s' (speaking_sessions (store (snd out))) /\
               s_id s' = s_id s /\
               s_participant_id s' = s_participant_id s /\
               s_meeting_id s' = s_meeting_id s /\
               s_started_at s' = s_started_at s /\
               s_ended_at s' = Some now /\
               s_duration s' = Some n) /\
  (forall s', In s' (speaking_sessions (store (snd out))) ->
              held_session st = Some (s_id s') ->
              s_ended_at s' = Some now /\ s_duration s' = Some n) /\
  In (set_stats false (p_total_speaking_time participant + n)
                      (p_speaking_sessions participant + 1) participant)
     (participants (store (snd out))) /\
  (forall r', In r' (participants (store (snd out))) ->
              p_id r' = p_id participant ->
              p_total_speaking_time r' = p_total_speaking_time participant + n /\
              p_speaking_sessions r' = p_speaking_sessions participant + 1 /\
              p_is_currently_speaking r' = false).
Proof.
  intros Hacc Hin n out. subst n out.
  destruct (stopSpeaking_aggregate participant now st w Hacc Hin) as [Ht [Hrow Hall]].
  assert (Hclosed : forall s, In s (speaking_sessions (store w)) ->
            held_session st = Some (s_id s) ->
            In (set_ended_at_duration now (currentSessionTime st) s)
               (speaking_sessions (store (snd (stopSpeaking participant now st w))))).
  { intros s Hs Hheld. rewrite (stopSpeaking_ledger participant now st w Hacc), Hheld.
    pose proof (In_update_where (fun x => String.eqb (s_id x) (s_id s))
      (set_ended_at_duration now (currentSessionTime st)) _ s Hs) as H.
    cbv beta in H. now rewrite String.eqb_refl in H. }
  split; [exact Ht|]. split; [|split; [|split; [exact Hrow|exact Hall]]].
  - intros s Hs Hheld. split; [now apply Hclosed|].
    exists (set_ended_at_duration now (currentSessionTime st) s).
    split; [now apply Hclosed|].
    cbn [set_ended_at_duration s_id s_participant_id s_meeting_id s_started_at
         s_ended_at s_duration].
    repeat split; reflexivity.
  - intros s' Hs' Hheld.
    rewrite (stopSpeaking_ledger participant now st w Hacc), Hheld in Hs'.
    apply update_where_hit in Hs'. destruct Hs' as [s [_ Hs']].
    destruct (String.eqb (s_id s) (s_id s')) eqn:E.
    + subst s'. cbn [set_ended_at_duration s_ended_at s_duration]. auto.
    + subst s'. rewrite String.eqb_refl in E. discriminate.
Qed.


(** ** What a stop closes *)

Lemma open_sessions_after_close participant_id sid now n rows :
  open_sessions_of participant_id
    (update_where (fun s => String.eqb (s_id s) sid)
       (set_ended_at_duration now n) rows)
  = List.filter (fun s => negb (String.eqb (s_id s) sid))
      (open_sessions_of participant_id rows).
Proof.
  unfold open_sessions_of, update_where.
  induction rows as [|a rows IH]; [reflexivity|].
  cbn [map List.filter]. rewrite IH.
  destruct (String.eqb (s_id a) sid) eqn:E.
  - cbn [set_ended_at_duration s_participant_id s_ended_at is_null].
    rewrite andb_false_r.
    destruct (String.eqb (s_participant_id a) participant_id && is_null (s_ended_at a));
      [cbn [List.filter]; rewrite E|]; reflexivity.
  - destruct (String.eqb (s_participant_id a) participant_id && is_null (s_ended_at a));
      [cbn [List.filter]; rewrite E|]; reflexivity.
Qed.

(** C2, as stated, fails: Alice's first stop lost its ledger update and the
    cleanup of her next start was refused too, so her timer holds the open
    session s-2 while s-1 is still open; the stop that follows is accepted,
    closes s-2 and leaves s-1 open. *)
Lemma stopSpeaking_leaves_stale_session_open :
  ~ (forall participant now st w,
       all_accept (script w) = true ->
       In participant (participants (store w)) ->
       holds_open_session st (p_id participant) (store w) = true ->
       let ledger := speaking_sessions (store (snd (stopSpeaking participant now st w))) in
       (forall s, most_recent_session (p_id participant) ledger = Some s ->
                  s_ended_at s <> None /\ s_duration s <> None) /\
       open_sessions_of (p_id participant) ledger = []).
Proof.
  intros H.
  specialize (H (card "p-alice" (store (snd alice_restarted)) alice) 12000
                (fst (fst alice_restarted))
                (answering [] (store (snd alice_restarted)))).
  assert (Hopen : open_sessions_of "p-alice"
            (speaking_sessions (store (snd (stopSpeaking
               (card "p-alice" (store (snd alice_restarted)) alice) 12000
               (fst (fst alice_restarted))
               (answering [] (store (snd alice_restarted))))))) <> []).
  { vm_compute. discriminate. }
  apply Hopen. apply H.
  - reflexivity.
  - vm_compute. left. reflexivity.
  - vm_compute. reflexivity.
Qed.

(** C2, amended. When every call is accepted and the timer holds session id
    [sid], [stopSpeaking] stamps [ended_at] and writes [duration] = the local
    count on the rows with that id and touches no other row of the ledger;
    the sessions of the participant that remain open are those that were
    open before other than the held one, so none remains when the held
    session was the participant's only open one. *)
Theorem stopSpeaking_closes_held_session participant now st w sid :
  all_accept (script w) = true ->
  held_session st = Some sid ->
  let ledger := speaking_sessions (store (snd (stopSpeaking participant now st w))) in
  (forall s, In s (speaking_sessions (store w)) -> s_id s = sid ->
             In (set_ended_at_duration now (currentSessionTime st) s) ledger) /\
  (forall s', In s' ledger -> s_id s' = sid ->
              s_ended_at s' = Some now /\ s_duration s' = Some (currentSessionTime st)) /\
  (forall s', s_id s' <> sid -> (In s' ledger <-> In s' (speaking_sessions (store w)))) /\
  open_sessions_of (p_id participant) ledger
    = List.filter (fun s => negb (String.eqb (s_id s) sid))
        (open_sessions_of (p_id participant) (speaking_sessions (store w))) /\
  ((forall s, In s (speaking_sessions (store w)) ->
              s_participant_id s = p_id participant -> s_ended_at s = None ->
              s_id s = sid) ->
   open_sessions_of (p_id participant) ledger = []).
Proof.
  intros Hacc Hheld ledger. subst ledger.
  rewrite (stopSpeaking_ledger participant now st w Hacc), Hheld.
  split; [|split; [|split; [|split]]].
  - intros s Hs <-.
    pose proof (In_update_where (fun x => String.eqb (s_id x) (s_id s))
      (set_ended_at_duration now (currentSessionTime st)) _ s Hs) as H.
    cbv beta in H. now rewrite String.eqb_refl in H.
  - intros s' Hs' Hid. apply update_where_hit in Hs'. destruct Hs' as [s [Hs ->]].
    destruct (String.eqb (s_id s) sid) eqn:E; [split; reflexivity|].
    apply String.eqb_neq in E. contradiction.
  - intros s' Hne. split.
    + intros Hs'. apply update_where_hit in Hs'. destruct Hs' as [s [Hs ->]].
      destruct (String.eqb (s_id s) sid) eqn:E; [|exact Hs].
      apply String.eqb_eq in E. cbn [set_ended_at_duration s_id] in Hne. contradiction.
    + intros Hs'.
      pose proof (In_update_where (fun x => String.eqb (s_id x) sid)
        (set_ended_at_duration now (currentSessionTime st)) _ s' Hs') as H.
      cbv beta in H. apply String.eqb_neq in Hne. now rewrite Hne in H.
  - apply open_sessions_after_close.
  - intros Honly. rewrite open_sessions_after_close.
    destruct (List.filter _ _) as [|x l] eqn:E; [reflexivity|].
    assert (Hx : In x (x :: l)) by (left; reflexivity).
    rewrite <- E in Hx. apply filter_In in Hx. destruct Hx as [Hx Hneq].
    unfold open_sessions_of in Hx. apply filter_In in Hx. destruct Hx as [Hx Hc].
    apply andb_true_iff in Hc. destruct Hc as [Hp Ho].
    apply String.eqb_eq in Hp. destruct (s_ended_at x) eqn:Ee; [discriminate|].
    rewrite (Honly x Hx Hp Ee), String.eqb_refl in Hneq. discriminate.
Qed.

(** ** Remote calls, whatever the answer *)

Lemma request_inv {A} (f : Db -> option (A * Db)) w r w1 :
  request f w = (r, w1) ->
  (r = Error /\ store w1 = store w) \/
  (exists a, r = Data a /\ f (store w) = Some (a, store w1)).
Proof.
  unfold request. intros H.
  destruct (script w) as [|[] l]; try (destruct (f (store w)) as [[a d]|] eqn:E);
    inversion H; subst; cbn [store]; eauto.
Qed.

(** ** ParticipantsNameList.toggleParticipantSpeaking *)

(** The store refuses a call that names a column the table does not have. *)
Lemma request_on_unknown {A} table named (f : Db -> option (A * Db)) w :
  has_columns table named = false ->
  request_on table named f w
  = (Error, {| store := store w; script := tl (script w) |}).
Proof.
  intros H. unfold request_on, request. rewrite H.
  destruct (script w) as [|[] l]; reflexivity.
Qed.




(** ** The live-timer counters *)

Lemma or_zero_id x : or_zero x = x.
Proof. unfold or_zero. destruct (Z.eqb_spec x 0); congruence. Qed.

(** C8, as stated, fails: with Alice and Bob both flagged and a counter
    running for Alice, the effect looks at Alice only; Bob is speaking and has
    no counter, and none is seeded for him. *)
Lemma sync_local_counters_skips_second_speaker :
  ~ (forall shown (localCounters : gmap string Counter) now p,
       In p shown ->
       p_is_currently_speaking p = true ->
       localCounters !! p_id p = None ->
       sync_local_counters shown localCounters now !! p_id p
         = Some {| startTime := now; baseSeconds := p_total_speaking_time p |}).
Proof.
  intros H.
  specialize (H both_speaking
                {[ "p-alice" := {| startTime := 1000; baseSeconds := 40 |} ]}
                2000 (set_stats true 15 1 bob)
                (or_intror (or_introl eq_refl)) eq_refl eq_refl).
  vm_compute in H. discriminate H.
Qed.

(** C8, amended. When no fetched participant is speaking the counters become
    empty. When the first fetched participant that is speaking (the one the
    effect looks at; the only one, if a single participant is speaking) has
    no counter, the counters become that single counter, seeded with the
    participant's stored total and the instant of the observation; speaking
    participants further down the list are not looked at. *)
Theorem sync_local_counters_follows_first_speaker shown
    (localCounters : gmap string Counter) now :
  (existsb p_is_currently_speaking shown = false ->
   sync_local_counters shown localCounters now = ∅) /\
  (forall p, find p_is_currently_speaking shown = Some p ->
             localCounters !! p_id p = None ->
             sync_local_counters shown localCounters now
             = {[ p_id p := {| startTime := now;
                               baseSeconds := p_total_speaking_time p |} ]}) /\
  (forall p, In p shown -> p_is_currently_speaking p = true ->
             (forall q, In q shown -> p_is_currently_speaking q = true -> q = p) ->
             localCounters !! p_id p = None ->
             sync_local_counters shown localCounters now
             = {[ p_id p := {| startTime := now;
                               baseSeconds := p_total_speaking_time p |} ]}).
Proof.
  assert (Hfirst : forall p, find p_is_currently_speaking shown = Some p ->
             localCounters !! p_id p = None ->
             sync_local_counters shown localCounters now
             = {[ p_id p := {| startTime := now;
                               baseSeconds := p_total_speaking_time p |} ]}).
  { intros p Hp Hc. unfold sync_local_counters. rewrite Hp, Hc, or_zero_id.
    reflexivity. }
  split; [|split; [exact Hfirst|]].
  - intros Hnone. unfold sync_local_counters.
    destruct (find p_is_currently_speaking shown) as [p|] eqn:E.
    + apply find_some in E. destruct E as [Hin Hsp].
      assert (existsb p_is_currently_speaking shown = true)
        by (apply existsb_exists; eauto).
      congruence.
    + destruct (0 <? size localCounters)%nat eqn:Es; [reflexivity|].
      apply Nat.ltb_ge in Es. apply map_size_empty_iff. lia.
  - intros p Hin Hsp Hsole Hc. apply Hfirst; [|exact Hc].
    destruct (find p_is_currently_speaking shown) as [q|] eqn:E.
    + apply find_some in E. destruct E as [Hq Hqs]. f_equal. now apply Hsole.
    + pose proof (find_none _ _ E p Hin) as Hf. congruence.
Qed.

(** ** Validation before any remote call *)

Lemma truthy_not_empty s : truthy s = negb (String.eqb s "").
Proof. destruct s; reflexivity. Qed.

Lemma no_valid_participant names :
  forallb blank names = true ->
  List.filter (fun p => negb (String.eqb (trim p) "")) names = [].
Proof.
  induction names as [|n names IH]; [reflexivity|].
  cbn [forallb List.filter]. rewrite andb_true_iff. intros [Hn Hrest].
  unfold blank in Hn. rewrite truthy_not_empty in Hn.
  apply negb_true_iff in Hn. rewrite Hn. now apply IH.
Qed.

(** C9. A meeting creation with a blank title or without a non-blank
    participant name, and a question submission with a blank question or,
    when not anonymous, a blank name, end with an error message and leave the
    world exactly as it was: the store is unchanged and no response of the
    environment has been consumed, so no remote call was made; the form is
    unchanged too. *)
Theorem create_with_empty_field_stays_local :
  (forall user now gm gp st w,
     blank (dlg_title st) = true \/ forallb blank (dlg_participants st) = true ->
     exists message,
       handleCreate user now gm gp st w = (st, Some (Toast "Error" message), w)) /\
  (forall meetingId g st w,
     blank (newQuestion st) = true \/
     (isAnonymous st = false /\ blank (askerName st) = true) ->
     exists message,
       submitQuestion meetingId g st w = (st, Some (Toast "Error" message), w)).
Proof.
  split.
  - intros user now gm gp st w H. unfold handleCreate. fold (blank (dlg_title st)).
    destruct (blank (dlg_title st)) eqn:Et.
    + eexists. reflexivity.
    + destruct H as [H | H]; [discriminate|].
      rewrite (no_valid_participant _ H). cbn [length Nat.eqb].
      eexists. reflexivity.
  - intros meetingId g st w H. unfold submitQuestion.
    fold (blank (newQuestion st)). fold (blank (askerName st)).
    destruct (blank (newQuestion st)) eqn:Eq.
    + eexists. reflexivity.
    + destruct H as [H | [Ha Hn]]; [discriminate|].
      rewrite Ha, Hn. cbn [negb andb]. eexists. reflexivity.
Qed.

(** ** Creating a meeting *)

Lemma own_meeting_set_inactive user now m :
  own_meeting user (set_inactive now m) = own_meeting user m.
Proof. destruct user; reflexivity. Qed.

(** Once the user's active meetings have been ended, the user has none. *)
Lemma deactivated_own user now (rows : list Meeting) :
  List.filter (fun m => m_is_active m && own_meeting user m)
    (update_where (fun m => Bool.eqb (m_is_active m) true && own_meeting user m)
       (set_inactive now) rows) = [].
Proof.
  unfold update_where. apply filter_map_none. intros m _.
  destruct (m_is_active m) eqn:Ea, (own_meeting user m) eqn:Eo;
    cbn [Bool.eqb andb]; rewrite ?own_meeting_set_inactive, ?Ea, ?Eo; reflexivity.
Qed.

Lemma filter_app_single {A} (f : A -> bool) (l : list A) (x : A) :
  List.filter f l = [] -> f x = true -> List.filter f (l ++ [x]) = [x].
Proof.
  intros Hl Hx. rewrite List.filter_app, Hl. cbn [List.filter]. now rewrite Hx.
Qed.

(** What the first call of [handleCreate] makes of a meeting. *)
Lemma ended_own user now (rows : list Meeting) m :
  In m rows ->
  (m_is_active m = true -> own_meeting user m = true ->
   In (set_inactive now m)
      (update_where (fun m => Bool.eqb (m_is_active m) true && own_meeting user m)
         (set_inactive now) rows)) /\
  (own_meeting user m = false ->
   In m (update_where (fun m => Bool.eqb (m_is_active m) true && own_meeting user m)
           (set_inactive now) rows)).
Proof.
  intros Hm.
  pose proof (In_update_where
    (fun x => Bool.eqb (m_is_active x) true && own_meeting user x)
    (set_inactive now) _ m Hm) as H.
  cbv beta in H. split.
  - intros Ha Ho. now rewrite Ha, Ho in H.
  - intros Ho. now rewrite Ho, andb_false_r in H.
Qed.

(** A creation that ends with its confirmation, every call accepted: the
    world it leaves. *)
Lemma handleCreate_done user now gm gp st w description :
  all_accept (script w) = true ->
  snd (fst (handleCreate user now gm gp st w))
    = Some (Toast "Meeting created" description) ->
  exists u rest,
    user = Some u /\
    handleCreate user now gm gp st w =
      ({| dlg_loading := false; dlg_title := ""; dlg_participants := [""] |},
       Some (Toast "Meeting created" description),
       {| store :=
            {| meetings :=
                 update_where
                   (fun m => Bool.eqb (m_is_active m) true && own_meeting (Some u) m)
                   (set_inactive now) (meetings (store w))
                 ++ [new_meeting u gm st];
               participants :=
                 participants (store w)
                 ++ new_participants (gen_id gm) (validParticipants st) gp;
               speaking_sessions := speaking_sessions (store w);
               questions := questions (store w) |};
          script := rest |}).
Proof.
  intros Hacc. unfold handleCreate. fold (validParticipants st).
  destruct (negb (truthy (trim (dlg_title st)))); [discriminate|].
  destruct (length _ =? 0)%nat; [discriminate|].
  unfold bind, ret. accept_request. accept_request.
  destruct user as [u|]; [|discriminate].
  fold (new_meeting u gm st).
  destruct (insert_row m_id _ _) as [l|] eqn:El; [|discriminate].
  unfold insert_row in El. destruct (existsb _ _); [discriminate|].
  injection El as <-.
  accept_request. cbn [m_id new_meeting].
  destruct (insert_rows _ _ _) as [ps|] eqn:Ep;
    cbn [fst snd]; [|discriminate].
  apply insert_rows_spec in Ep. destruct Ep as [-> _].
  intros [= <-]. exists u. eexists. split; reflexivity.
Qed.

(** C7, as stated, fails: the stand-up of the first user is in progress when
    a second user creates a meeting. Every call is accepted and the creation
    is confirmed; the update that ends the active meetings does not reach
    the stand-up, which the policy hides from the second user, and two
    meetings are active afterwards. *)
Lemma handleCreate_leaves_other_users_meeting_active :
  ~ (forall user now gm gp st w description,
       all_accept (script w) = true ->
       snd (fst (handleCreate user now gm gp st w))
         = Some (Toast "Meeting created" description) ->
       exists u, user = Some u /\
         List.filter m_is_active
           (meetings (store (snd (handleCreate user now gm gp st w))))
         = [new_meeting u gm st]).
Proof.
  intros H.
  destruct (H (Some "u-2") 50000 (generated "m-2" 50000) retro_ids retro_form
              (answering [] standup) "Retro has been created with 1 participants"
              eq_refl eq_refl) as [u [_ Hactive]].
  vm_compute in Hactive. discriminate Hactive.
Qed.

(** C7, amended. A run of [handleCreate] in which every call is accepted and
    that ends with the confirmation has set [is_active = false] and stamped
    [ended_at] on every meeting of the signed-in user that was active, its
    other columns as they were, and then inserted the new meeting: of the
    meetings that user created, the new one alone is active. The meetings of
    other users are as they were, active or not. *)
Theorem handleCreate_sole_active_meeting_of_user user now gm gp st w description :
  all_accept (script w) = true ->
  snd (fst (handleCreate user now gm gp st w))
    = Some (Toast "Meeting created" description) ->
  let ms' := meetings (store (snd (handleCreate user now gm gp st w))) in
  exists u, user = Some u /\
    (forall m, In m (meetings (store w)) ->
               m_is_active m = true -> m_created_by m = u ->
               exists m', In m' ms' /\
                 m_id m' = m_id m /\ m_title m' = m_title m /\
                 m_created_by m' = u /\ m_created_at m' = m_created_at m /\
                 m_is_active m' = false /\ m_ended_at m' = Some now) /\
    (forall m, In m (meetings (store w)) -> m_created_by m <> u -> In m ms') /\
    map m_id ms' = map m_id (meetings (store w)) ++ [gen_id gm] /\
    List.filter (fun m => m_is_active m && String.eqb (m_created_by m) u) ms' =
      [ {| m_id := gen_id gm; m_title := trim (dlg_title st); m_created_by := u;
           m_is_active := true; m_created_at := gen_now gm; m_ended_at := None |} ].
Proof.
  intros Hacc Hdone ms'. subst ms'.
  destruct (handleCreate_done user now gm gp st w description Hacc Hdone)
    as [u [rest [Hu ->]]].
  exists u. split; [exact Hu|]. cbn [snd store meetings].
  split; [|split; [|split]].
  - intros m Hm Ha Hown. exists (set_inactive now m). split.
    + apply in_or_app. left.
      apply (proj1 (ended_own (Some u) now _ m Hm)); [exact Ha|].
      cbn [own_meeting]. rewrite Hown. apply String.eqb_refl.
    + cbn [set_inactive m_id m_title m_created_by m_created_at m_is_active m_ended_at].
      repeat split; try reflexivity. exact Hown.
  - intros m Hm Hother. apply in_or_app. left.
    apply (proj2 (ended_own (Some u) now _ m Hm)).
    cbn [own_meeting]. now apply String.eqb_neq.
  - rewrite map_app. cbn [map new_meeting m_id]. f_equal.
    apply update_where_field. reflexivity.
  - apply (filter_app_single
             (fun m => m_is_active m && String.eqb (m_created_by m) u)).
    + exact (deactivated_own (Some u) now (meetings (store w))).
    + cbn [new_meeting m_is_active m_created_by andb]. apply String.eqb_refl.
Qed.

(** ** Runs that leave the aggregates alone *)

Lemma preserves_ret {A} (R : Db -> Db -> Prop) (a : A) :
  (forall d, R d d) -> preserves R (ret a).
Proof. intros Hrefl w. apply Hrefl. Qed.

Lemma preserves_request {A} (R : Db -> Db -> Prop) (f : Db -> option (A * Db)) :
  (forall d, R d d) ->
  (forall d a d', f d = Some (a, d') -> R d d') ->
  preserves R (request f).
Proof.
  intros Hrefl Hf w. destruct (request f w) as [r w1] eqn:E.
  apply request_inv in E. cbn [snd].
  destruct E as [[_ ->] | [a [_ E]]]; [apply Hrefl|]. exact (Hf _ _ _ E).
Qed.

Lemma preserves_bind {A B} (R : Db -> Db -> Prop) (c : Remote A) (k : A -> Remote B) :
  (forall x y z, R x y -> R y z -> R x z) ->
  preserves R c -> (forall a, preserves R (k a)) -> preserves R (bind c k).
Proof.
  intros Htrans Hc Hk w. unfold bind. specialize (Hc w).
  destruct (c w) as [a w1]. cbn [snd] in Hc. exact (Htrans _ _ _ Hc (Hk a w1)).
Qed.

Lemma quiet_ret {A} (a : A) : quiet (ret a).
Proof. apply preserves_ret. reflexivity. Qed.

Lemma quiet_request {A} (f : Db -> option (A * Db)) :
  (forall d a d', f d = Some (a, d') -> aggregates d' = aggregates d) ->
  quiet (request f).
Proof. intros H. apply preserves_request; [reflexivity|exact H]. Qed.

Lemma quiet_bind {A B} (c : Remote A) (k : A -> Remote B) :
  quiet c -> (forall a, quiet (k a)) -> quiet (bind c k).
Proof.
  apply preserves_bind. intros x y z Hxy Hyz. now rewrite Hyz.
Qed.

Lemma aggregates_flag cond b d :
  aggregates (with_participants
    (update_where cond (set_is_currently_speaking b) (participants d)) d)
  = aggregates d.
Proof.
  unfold aggregates. cbn [participants with_participants].
  apply update_where_field. reflexivity.
Qed.

(** Discharge the side condition of [quiet_request] for a call that writes a
    flag, a session or a meeting. *)
Ltac quiet_call :=
  let d := fresh "d" in let a := fresh "a" in
  let d' := fresh "d'" in let H := fresh "H" in
  intros d a d' H;
  repeat match type of H with
         | context [match ?x with _ => _ end] => destruct x
         end;
  try discriminate H;
  injection H as _ <-;
  first [ apply aggregates_flag | reflexivity ].

Ltac quiet_run :=
  repeat first
    [ apply quiet_ret
    | apply quiet_request; quiet_call
    | apply quiet_bind; [|intros ?]
    | match goal with
      | |- quiet (match ?x with _ => _ end) => destruct x
      end ].

Lemma startSpeaking_quiet participant meetingId now g st :
  quiet (startSpeaking participant meetingId now g st).
Proof. unfold startSpeaking. quiet_run. Qed.

Lemma toggleParticipantSpeaking_quiet shown meetingId participantId now g active :
  quiet (toggleParticipantSpeaking shown meetingId participantId now g active).
Proof. unfold toggleParticipantSpeaking, request_on. quiet_run. Qed.

Lemma handleEndMeeting_quiet meetingId now :
  quiet (handleEndMeeting meetingId now).
Proof. unfold handleEndMeeting. quiet_run. Qed.

(** ** Runs that write the aggregates *)

Lemma stopSpeaking_participants participant now st w :
  let d' := store (snd (stopSpeaking participant now st w)) in
  participants d' = participants (store w) \/
  participants d' =
    update_where (fun r => String.eqb (p_id r) (p_id participant))
      (set_stats false
         (p_total_speaking_time participant + currentSessionTime st)
         (p_speaking_sessions participant + 1))
      (participants (store w)).
Proof.
  intros d'. subst d'. unfold stopSpeaking, bind, ret.
  assert (Hlast : forall w1,
            participants (store w1) = participants (store w) ->
            let d1 := store (snd (let (_, w2) :=
                        request (fun d => Some (tt, with_participants
                          (update_where (fun r => String.eqb (p_id r) (p_id participant))
                             (set_stats false
                                (p_total_speaking_time participant + currentSessionTime st)
                                (p_speaking_sessions participant + 1))
                             (participants d)) d)) w1 in
                        ({| currentSessionTime := 0; activeSessionId := None |},
                         @None toast, w2))) in
            participants d1 = participants (store w) \/
            participants d1 =
              update_where (fun r => String.eqb (p_id r) (p_id participant))
                (set_stats false
                   (p_total_speaking_time participant + currentSessionTime st)
                   (p_speaking_sessions participant + 1))
                (participants (store w))).
  { intros w1 Hw1 d1. subst d1.
    destruct (request _ w1) as [r w2] eqn:E. apply request_inv in E. cbn [snd].
    destruct E as [[_ ->] | [a [_ E]]]; [left; exact Hw1|].
    injection E as _ <-. right. cbn [participants with_participants].
    now rewrite Hw1. }
  destruct (held_session st) as [sid|].
  - destruct (request _ w) as [r w1] eqn:E. apply request_inv in E.
    apply Hlast. destruct E as [[_ ->] | [a [_ E]]]; [reflexivity|].
    injection E as _ <-. reflexivity.
  - apply Hlast. reflexivity.
Qed.

Lemma stopSpeaking_timer participant now st w :
  currentSessionTime (fst (fst (stopSpeaking participant now st w))) = 0.
Proof.
  unfold stopSpeaking, bind, ret.
  destruct (held_session st); repeat destruct (request _ _); reflexivity.
Qed.

Lemma startSpeaking_timer participant meetingId now g st w :
  fst (fst (startSpeaking participant meetingId now g st w)) = st \/
  currentSessionTime (fst (fst (startSpeaking participant meetingId now g st w))) = 0.
Proof.
  unfold startSpeaking, bind, ret.
  destruct (request _ w) as [r0 w0].
  destruct (request _ w0) as [[[|i ids]|] w1].
  - destruct (request _ w1) as [[news|] w2]; [|left; reflexivity].
    destruct (request _ w2). right. reflexivity.
  - destruct (request _ w1) as [r2 w2].
    destruct (request _ w2) as [[news|] w3]; [|left; reflexivity].
    destruct (request _ w3). right. reflexivity.
  - destruct (request _ w1) as [[news|] w2]; [|left; reflexivity].
    destruct (request _ w2). right. reflexivity.
Qed.

Lemma addParticipant_participants meetingId g form w :
  exists news,
    insert_rows p_id news (participants (store w))
      = Some (participants (store (snd (addParticipant meetingId g form w)))) /\
    Forall created_at_zero news.
Proof.
  unfold addParticipant.
  destruct (negb (truthy (trim (newParticipantName form)))).
  - exists []. split; [reflexivity|constructor].
  - unfold bind, ret. destruct (request _ w) as [r w1] eqn:E.
    apply request_inv in E.
    destruct E as [[-> Hst] | [a [-> E]]]; cbn [snd].
    + rewrite Hst. exists []. split; [reflexivity|constructor].
    + destruct (insert_row _ _ _) as [l|] eqn:El; [|discriminate].
      injection E as _ <-. cbn [participants with_participants].
      eexists [_]. cbn [insert_rows]. rewrite El. split; [reflexivity|].
      repeat constructor.
Qed.

Lemma new_participants_zero meeting names gp :
  Forall created_at_zero (new_participants meeting names gp).
Proof.
  unfold new_participants. apply List.Forall_forall. intros r Hr.
  apply in_map_iff in Hr. destruct Hr as [[i name] [<- _]].
  split; reflexivity.
Qed.

Lemma handleCreate_participants user now gm gp form w :
  exists news,
    insert_rows p_id news (participants (store w))
      = Some (participants (store (snd (handleCreate user now gm gp form w)))) /\
    Forall created_at_zero news.
Proof.
  assert (Hnone : exists news,
            insert_rows p_id news (participants (store w))
              = Some (participants (store w)) /\ Forall created_at_zero news).
  { exists []. split; [reflexivity|constructor]. }
  unfold handleCreate.
  destruct (negb (truthy (trim (dlg_title form)))); [exact Hnone|].
  destruct (length _ =? 0)%nat; [exact Hnone|].
  unfold bind, ret.
  destruct (request _ w) as [r0 w0] eqn:E0. apply request_inv in E0.
  assert (H0 : participants (store w0) = participants (store w)).
  { destruct E0 as [[_ ->] | [a [_ E0]]]; [reflexivity|].
    injection E0 as _ <-. reflexivity. }
  destruct (request _ w0) as [r1 w1] eqn:E1. apply request_inv in E1.
  assert (H1 : participants (store w1) = participants (store w)).
  { rewrite <- H0. destruct E1 as [[_ ->] | [a [_ E1]]]; [reflexivity|].
    destruct user; [|discriminate].
    destruct (insert_row _ _ _); [|discriminate].
    injection E1 as _ <-. reflexivity. }
  destruct r1 as [meeting|]; [|cbn [snd store]; rewrite H1; exact Hnone].
  destruct (request _ w1) as [r2 w2] eqn:E2. apply request_inv in E2.
  destruct E2 as [[-> Hst] | [a [-> E2]]]; cbn [snd];
    [rewrite Hst, H1; exact Hnone|].
  destruct (insert_rows _ _ _) as [l|] eqn:El; [|discriminate].
  injection E2 as _ <-. cbn [participants with_participants].
  rewrite H1 in El. eexists. split; [exact El|]. apply new_participants_zero.
Qed.

(** ** Totals that only grow *)

Lemma keeps_refl r : keeps r r.
Proof. unfold keeps. repeat split; lia. Qed.

Lemma keeps_trans r1 r2 r3 : keeps r1 r2 -> keeps r2 r3 -> keeps r1 r3.
Proof. unfold keeps. intros [? [? ?]] [? [? ?]]. repeat split; try congruence; lia. Qed.

Lemma Forall2_keeps_refl l : Forall2 keeps l l.
Proof. induction l; constructor; auto using keeps_refl. Qed.

Lemma Forall2_keeps_trans l1 l2 l3 :
  Forall2 keeps l1 l2 -> Forall2 keeps l2 l3 -> Forall2 keeps l1 l3.
Proof.
  intros H. revert l3. induction H as [|a b l1 l2 Hab _ IH]; intros l3 H23.
  - inversion H23. constructor.
  - inversion H23 as [|b' c l2' l3' Hbc Hrest]; subst.
    constructor; [exact (keeps_trans _ _ _ Hab Hbc)|]. now apply IH.
Qed.

Lemma grows_refl l : grows l l.
Proof.
  exists l, []. rewrite app_nil_r. repeat split; [apply Forall2_keeps_refl|constructor].
Qed.

Lemma grows_trans l1 l2 l3 : grows l1 l2 -> grows l2 l3 -> grows l1 l3.
Proof.
  intros [k1 [e1 [-> [H1 He1]]]] [k2 [e2 [-> [H2 He2]]]].
  apply List.Forall2_app_inv_l in H2.
  destruct H2 as [k2a [k2b [Ha [Hb ->]]]].
  exists k2a, (k2b ++ e2). rewrite <- app_assoc.
  repeat split; [exact (Forall2_keeps_trans _ _ _ H1 Ha)|].
  apply List.Forall_app. split; [|exact He2].
  clear - He1 Hb. induction Hb as [|a b e1 k2b Hab _ IH]; [constructor|].
  inversion He1 as [|? ? [Ht Hs] Hrest]; subst.
  constructor; [|now apply IH].
  destruct Hab as [_ [? ?]]. lia.
Qed.

Lemma grows_same_aggregates d d' :
  aggregates d' = aggregates d -> grows (participants d) (participants d').
Proof.
  unfold aggregates. intros H. exists (participants d'), [].
  rewrite app_nil_r. repeat split; [|constructor].
  revert H. generalize (participants d') as l'. generalize (participants d) as l.
  induction l as [|a l IH]; intros [|a' l'] H; try discriminate; constructor.
  - cbn [map] in H. injection H as Hid Ht Hs _. unfold keeps.
    repeat split; [exact Hid|lia|lia].
  - cbn [map] in H. injection H as _ _ _ Hl. now apply IH.
Qed.

Lemma same_aggregates_unique d d' :
  aggregates d' = aggregates d ->
  unique p_id (participants d') = unique p_id (participants d).
Proof.
  intros H. apply unique_map_key.
  assert (E : forall l, map p_id l
            = map (fun x : uuid * Z * Z => fst (fst x))
                (map (fun p => (p_id p, p_total_speaking_time p, p_speaking_sessions p)) l)).
  { intros l. rewrite map_map. reflexivity. }
  rewrite (E (participants d')), (E (participants d)).
  unfold aggregates in H. now rewrite H.
Qed.

Lemma grows_created rows news :
  Forall created_at_zero news -> grows rows (rows ++ news).
Proof.
  intros H. exists rows, news. repeat split; [apply Forall2_keeps_refl|].
  eapply List.Forall_impl; [|exact H]. intros r [-> ->]. lia.
Qed.

Lemma grows_credit rows participant n :
  unique p_id rows = true -> In participant rows -> 0 <= n ->
  grows rows
    (update_where (fun r => String.eqb (p_id r) (p_id participant))
       (set_stats false (p_total_speaking_time participant + n)
                        (p_speaking_sessions participant + 1)) rows).
Proof.
  intros Hu Hin Hn. eexists _, []. rewrite app_nil_r.
  repeat split; [|constructor].
  assert (H : forall r, In r rows ->
            keeps r (if String.eqb (p_id r) (p_id participant)
                     then set_stats false (p_total_speaking_time participant + n)
                            (p_speaking_sessions participant + 1) r
                     else r)).
  { intros r Hr. destruct (String.eqb (p_id r) (p_id participant)) eqn:E;
      [|apply keeps_refl].
    apply String.eqb_eq in E.
    rewrite (unique_inj p_id rows r participant Hu Hr Hin E).
    unfold keeps. cbn [set_stats p_id p_total_speaking_time p_speaking_sessions].
    repeat split; lia. }
  clear Hu Hin. unfold update_where.
  induction rows as [|a rows IH]; constructor.
  - apply H. left. reflexivity.
  - apply IH. intros r Hr. apply H. right. exact Hr.
Qed.

(** ** One step of the client *)

Lemma timer_of_nonneg timers i :
  timers_nonneg timers -> 0 <= currentSessionTime (timer_of timers i).
Proof.
  intros H. unfold timer_of. destruct (timers !! i) as [st|] eqn:E; cbn [default].
  - exact (H i st E).
  - reflexivity.
Qed.

Lemma tick_nonneg p st :
  0 <= currentSessionTime st -> 0 <= currentSessionTime (tick p st).
Proof.
  intros H. unfold tick. destruct (p_is_currently_speaking p); cbn [currentSessionTime]; lia.
Qed.

(** A fetch of the list reads and never writes. *)
Lemma fetchParticipants_store meeting_id view w :
  store (snd (fetchParticipants meeting_id view w)) = store w.
Proof.
  unfold fetchParticipants, bind, ret.
  destruct (request _ w) as [r w1] eqn:E. apply request_inv in E.
  destruct E as [[-> Hst] | [a [-> E]]]; cbn [snd]; [exact Hst|].
  now injection E as _ <-.
Qed.

Lemma step_invariant c e c' :
  step c e c' ->
  stop_on_stored_row c e ->
  unique p_id (participants (cl_store c)) = true ->
  timers_nonneg (cl_timers c) ->
  grows (participants (cl_store c)) (participants (cl_store c')) /\
  unique p_id (participants (cl_store c')) = true /\
  timers_nonneg (cl_timers c').
Proof.
  intros Hstep Hok Hu Ht.
  destruct Hstep as
    [ c meeting_id view sc view' t w' Hview Hrun
    | c p Hin
    | c p meetingId now g sc st' t w' Hin Hrun
    | c p now sc st' t w' Hin Hrun
    | c meetingId participantId now g active sc r w' Hrun
    | c meetingId g form sc form' t w' Hrun
    | c user now gm gp form sc form' t w' Hrun
    | c meetingId now sc t w' Hrun ];
    cbn [cl_store cl_timers].
  - pose proof (fetchParticipants_store meeting_id view (answering sc (cl_store c))) as Hs.
    rewrite Hrun in Hs. cbn [snd store answering] in Hs. rewrite Hs.
    split; [apply grows_refl|]. split; [exact Hu|exact Ht].
  - split; [apply grows_refl|]. split; [exact Hu|].
    apply map_Forall_insert_2; [|exact Ht].
    apply tick_nonneg, timer_of_nonneg, Ht.
  - pose proof (startSpeaking_quiet p meetingId now g
                  (timer_of (cl_timers c) (p_id p)) (answering sc (cl_store c))) as Hq.
    pose proof (startSpeaking_timer p meetingId now g
                  (timer_of (cl_timers c) (p_id p)) (answering sc (cl_store c))) as Hst.
    rewrite Hrun in Hq, Hst. cbn [fst snd store answering] in Hq, Hst.
    split; [now apply grows_same_aggregates|].
    split; [now rewrite (same_aggregates_unique _ _ Hq)|].
    apply map_Forall_insert_2; [|exact Ht].
    destruct Hst as [-> | ->]; [now apply timer_of_nonneg|reflexivity].
  - cbn [stop_on_stored_row] in Hok.
    pose proof (stopSpeaking_participants p now
                  (timer_of (cl_timers c) (p_id p)) (answering sc (cl_store c))) as Hp.
    pose proof (stopSpeaking_timer p now
                  (timer_of (cl_timers c) (p_id p)) (answering sc (cl_store c))) as Hst.
    rewrite Hrun in Hp, Hst. cbn [fst snd store answering] in Hp, Hst.
    split; [|split].
    + destruct Hp as [-> | ->]; [apply grows_refl|].
      apply grows_credit; [exact Hu|exact Hok|now apply timer_of_nonneg].
    + destruct Hp as [-> | ->]; [exact Hu|].
      rewrite <- Hu. apply unique_map_key. apply update_where_field. reflexivity.
    + apply map_Forall_insert_2; [|exact Ht]. now rewrite Hst.
  - pose proof (toggleParticipantSpeaking_quiet (cl_shown c) meetingId participantId
                  now g active (answering sc (cl_store c))) as Hq.
    rewrite Hrun in Hq. cbn [snd store answering] in Hq.
    split; [now apply grows_same_aggregates|].
    split; [now rewrite (same_aggregates_unique _ _ Hq)|exact Ht].
  - destruct (addParticipant_participants meetingId g form (answering sc (cl_store c)))
      as [news [Hins Hzero]].
    rewrite Hrun in Hins. cbn [snd store answering] in Hins.
    apply insert_rows_spec in Hins. destruct Hins as [-> Hu'].
    split; [now apply grows_created|]. split; [now apply Hu'|exact Ht].
  - destruct (handleCreate_participants user now gm gp form (answering sc (cl_store c)))
      as [news [Hins Hzero]].
    rewrite Hrun in Hins. cbn [snd store answering] in Hins.
    apply insert_rows_spec in Hins. destruct Hins as [-> Hu'].
    split; [now apply grows_created|]. split; [now apply Hu'|exact Ht].
  - pose proof (handleEndMeeting_quiet meetingId now (answering sc (cl_store c))) as Hq.
    rewrite Hrun in Hq. cbn [snd store answering] in Hq.
    split; [now apply grows_same_aggregates|].
    split; [now rewrite (same_aggregates_unique _ _ Hq)|exact Ht].
Qed.

Lemma grows_in before after r :
  grows before after -> In r before -> exists r', In r' after /\ keeps r r'.
Proof.
  intros [l [ext [-> [H _]]]] Hin.
  induction H as [|a b before l Hab _ IH]; [contradiction|].
  destruct Hin as [-> | Hin].
  - exists b. split; [left; reflexivity|exact Hab].
  - destruct (IH Hin) as [r' [Hr' Hk]]. exists r'. split; [right; exact Hr'|exact Hk].
Qed.

Lemma run_weaken (ok ok' : Client -> event -> Prop) c c' :
  (forall c e, ok c e -> ok' c e) -> run ok c c' -> run ok' c c'.
Proof.
  intros Hok. induction 1 as [c | c e c1 c' He Hstep _ IH].
  - apply run_done.
  - exact (run_step ok' c e c1 c' (Hok c e He) Hstep IH).
Qed.

(** The stand-up from the opening of the page to Alice's stop, each step
    taken once the list has come back. *)
Lemma client_run : run stop_on_stored_row client_opened client_stopped.
Proof.
  apply run_step with Fetched client_listed; [exact I| |].
  { apply (step_fetch client_opened "m-1"
             {| view_participants := []; view_loading := true |} []
             {| view_participants := [alice; bob]; view_loading := false |} None
             (answering [] standup)); reflexivity. }
  apply run_step with (Started alice) client_started; [exact I| |].
  { apply (step_startSpeaking client_listed alice "m-1" 1000 (generated "s-1" 1000) []
             (fst (fst alice_started)) (snd (fst alice_started)) (snd alice_started)).
    - left. reflexivity.
    - reflexivity. }
  apply run_step with Fetched client_relisted; [exact I| |].
  { apply (step_fetch client_started "m-1"
             {| view_participants := [alice; bob]; view_loading := false |} []
             {| view_participants := [alice_speaking; bob]; view_loading := false |} None
             (answering [] (store (snd alice_started)))); reflexivity. }
  apply run_step with (Ticked alice_speaking) client_ticked; [exact I| |].
  { apply (step_tick client_relisted alice_speaking). left. reflexivity. }
  apply run_step with (Stopped alice_speaking) client_stopped.
  - left. reflexivity.
  - apply (step_stopSpeaking client_ticked alice_speaking 2000 []
             (fst (fst alice_stopped)) (snd (fst alice_stopped)) (snd alice_stopped)).
    + left. reflexivity.
    + reflexivity.
  - apply run_done.
Qed.

(** Stop clicked once more on Alice's card, before the list has come back:
    the card still shows her as speaking, with the total she had. *)
Lemma client_stop_again : run any_time client_stopped client_stopped_again.
Proof.
  apply run_step with (Stopped alice_speaking) client_stopped_again; [exact I| |].
  - apply (step_stopSpeaking client_stopped alice_speaking 2500 []
             (fst (fst alice_stopped_again)) (snd (fst alice_stopped_again))
             (snd alice_stopped_again)).
    + left. reflexivity.
    + reflexivity.
  - apply run_done.
Qed.

(** C6, as stated, fails: Alice starts, speaks for a second and stops; the
    stop credits her second (total 1) and resets the local count. Before the
    list has come back her card still offers Stop, on the row fetched while
    she spoke (total 0); a second click writes that total plus the local
    count, 0, over the stored 1. Every call of the run is accepted. *)
Lemma second_stop_lowers_total :
  ~ (forall c c',
       run any_time client_opened c ->
       run any_time c c' ->
       forall r, In r (participants (cl_store c)) ->
         exists r', In r' (participants (cl_store c')) /\
           p_id r' = p_id r /\
           p_total_speaking_time r <= p_total_speaking_time r' /\
           p_speaking_sessions r <= p_speaking_sessions r').
Proof.
  intros H.
  destruct (H client_stopped client_stopped_again
              (run_weaken stop_on_stored_row any_time _ _ (fun _ _ _ => I) client_run)
              client_stop_again
              (set_stats false 1 1 alice) (or_introl eq_refl))
    as [r' [Hin [Hid [Htotal _]]]].
  vm_compute in Hin. destruct Hin as [<- | [<- | []]].
  - vm_compute in Htotal. now apply Htotal.
  - discriminate Hid.
Qed.

(** C6, amended. Along any sequence of operations of a client (fetches,
    ticks, starts, stops, clicks on names, additions of participants,
    creations and ends of meetings, with their calls accepted or refused) in
    which Stop is clicked on cards that show the stored row, every
    participant row stays in place with a [total_speaking_time] and a
    [speaking_sessions] at least as large as before; rows created on the way
    start from zero and so carry non-negative totals. Participant
    identifiers stay unique. *)
Theorem aggregates_grow_when_stop_acts_on_stored_row c c' :
  unique p_id (participants (cl_store c)) = true ->
  timers_nonneg (cl_timers c) ->
  run stop_on_stored_row c c' ->
  grows (participants (cl_store c)) (participants (cl_store c')) /\
  (forall r, In r (participants (cl_store c)) ->
     exists r', In r' (participants (cl_store c')) /\
       p_id r' = p_id r /\
       p_total_speaking_time r <= p_total_speaking_time r' /\
       p_speaking_sessions r <= p_speaking_sessions r') /\
  unique p_id (participants (cl_store c')) = true.
Proof.
  intros Hu Ht Hsteps.
  assert (H : grows (participants (cl_store c)) (participants (cl_store c')) /\
              unique p_id (participants (cl_store c')) = true).
  { induction Hsteps as [c | c e c1 c' Hok Hstep _ IH].
    - split; [apply grows_refl|exact Hu].
    - destruct (step_invariant c e c1 Hstep Hok Hu Ht) as [Hg [Hu1 Ht1]].
      destruct (IH Hu1 Ht1) as [Hg' Hu'].
      split; [exact (grows_trans _ _ _ Hg Hg')|exact Hu']. }
  destruct H as [Hg Hu']. split; [exact Hg|]. split; [|exact Hu'].
  intros r Hr. exact (grows_in _ _ r Hg Hr).
Qed.

(** * The properties at work on the stand-up meeting *)

Lemma startSpeaking_sole_speaker_witness :
  List.filter (speaking_in "m-1") (participants (store (snd alice_started)))
  = [set_is_currently_speaking true alice].
Proof.
  unfold alice_started.
  apply (startSpeaking_sole_speaker alice "m-1" 1000 (generated "s-1" 1000) idle
           (answering [] standup) alice); try reflexivity.
  left. reflexivity.
Defined.

(** Bob starts at 4000 while Alice's session s-1 is open: s-1 is closed at
    4000, with no duration, and s-2 is the open session of the meeting. *)
Lemma startSpeaking_cleanup_witness :
  In {| s_id := "s-1"; s_participant_id := "p-alice"; s_meeting_id := "m-1";
        s_started_at := 1000; s_ended_at := Some 4000; s_duration := None |}
     (speaking_sessions (store (snd
        (startSpeaking bob "m-1" 4000 (generated "s-2" 4000) idle
           (answering [] (store (snd alice_started))))))) /\
  open_sessions_in "m-1"
    (speaking_sessions (store (snd
       (startSpeaking bob "m-1" 4000 (generated "s-2" 4000) idle
          (answering [] (store (snd alice_started)))))))
  = [new_session "p-bob" "m-1" (generated "s-2" 4000)].
Proof.
  destruct (startSpeaking_cleanup_stamps_ended_at_only bob "m-1" 4000
              (generated "s-2" 4000) idle
              (answering [] (store (snd alice_started))) eq_refl eq_refl)
    as [Hclosed [Hopen _]].
  split; [|exact Hopen].
  exact (proj1 (Hclosed (new_session "p-alice" "m-1" (generated "s-1" 1000))
                  (or_introl eq_refl) eq_refl eq_refl)).
Defined.

(** Scenario A: five ticks after her start Alice stops; her total goes from
    0 to 5, her sessions from 0 to 1, and s-1 is closed with duration 5. *)
Lemma stopSpeaking_credits_witness :
  In {| s_id := "s-1"; s_participant_id := "p-alice"; s_meeting_id := "m-1";
        s_started_at := 1000; s_ended_at := Some 6000; s_duration := Some 5 |}
     (speaking_sessions (store (snd
        (stopSpeaking alice_speaking 6000 alice_after_five_ticks
           (answering [] (store (snd alice_started))))))) /\
  In (set_stats false 5 1 alice)
     (participants (store (snd
        (stopSpeaking alice_speaking 6000 alice_after_five_ticks
           (answering [] (store (snd alice_started))))))).
Proof.
  pose proof (stopSpeaking_credits_local_count alice_speaking 6000
                alice_after_five_ticks (answering [] (store (snd alice_started)))
                eq_refl (or_introl eq_refl)) as H.
  destruct H as [_ [Hledger [_ [Htotals _]]]]. split.
  - exact (proj1 (Hledger (new_session "p-alice" "m-1" (generated "s-1" 1000))
                    (or_introl eq_refl) eq_refl)).
  - exact Htotals.
Defined.


Lemma stopSpeaking_closes_held_session_witness :
  open_sessions_of "p-alice"
    (speaking_sessions (store (snd
       (stopSpeaking alice_speaking 6000 alice_after_five_ticks
          (answering [] (store (snd alice_started)))))))
  = [].
Proof.
  apply (stopSpeaking_closes_held_session alice_speaking 6000 alice_after_five_ticks
           (answering [] (store (snd alice_started))) "s-1" eq_refl eq_refl).
  intros s [<- | []] _ _. reflexivity.
Defined.

Lemma sync_local_counters_witness :
  sync_local_counters [alice; bob]
    {[ "p-alice" := {| startTime := 1000; baseSeconds := 0 |} ]} 2000 = ∅ /\
  sync_local_counters [alice; set_stats true 15 1 bob] ∅ 2000
  = {[ "p-bob" := {| startTime := 2000; baseSeconds := 15 |} ]}.
Proof.
  split.
  - apply (proj1 (sync_local_counters_follows_first_speaker [alice; bob]
                    {[ "p-alice" := {| startTime := 1000; baseSeconds := 0 |} ]} 2000)).
    reflexivity.
  - apply (proj1 (proj2 (sync_local_counters_follows_first_speaker
                           [alice; set_stats true 15 1 bob] ∅ 2000))
             (set_stats true 15 1 bob)); reflexivity.
Defined.

Lemma create_with_empty_field_witness :
  (exists message,
     handleCreate (Some "u-1") 50000 (generated "m-2" 50000) retro_ids
       {| dlg_loading := false; dlg_title := "  "; dlg_participants := ["Carol"] |}
       (answering [Reject] standup)
     = ({| dlg_loading := false; dlg_title := "  "; dlg_participants := ["Carol"] |},
        Some (Toast "Error" message), answering [Reject] standup)) /\
  (exists message,
     submitQuestion "m-1" (generated "q-1" 50000)
       {| newQuestion := "When do we ship?"; askerName := ""; isAnonymous := false |}
       (answering [] standup)
     = ({| newQuestion := "When do we ship?"; askerName := ""; isAnonymous := false |},
        Some (Toast "Error" message), answering [] standup)).
Proof.
  split.
  - apply (proj1 create_with_empty_field_stays_local). left. reflexivity.
  - apply (proj2 create_with_empty_field_stays_local). right. split; reflexivity.
Defined.

(** The first user creates the retrospective while the stand-up and the
    second user's board meeting are in progress: of the first user's
    meetings the retrospective alone is active. *)
Lemma handleCreate_sole_active_meeting_of_user_witness :
  List.filter (fun m => m_is_active m && String.eqb (m_created_by m) "u-1")
    (meetings (store (snd
       (handleCreate (Some "u-1") 50000 (generated "m-2" 50000) retro_ids retro_form
          (answering [] two_users)))))
  = [ {| m_id := "m-2"; m_title := "Retro"; m_created_by := "u-1";
         m_is_active := true; m_created_at := 50000; m_ended_at := None |} ].
Proof.
  destruct (handleCreate_sole_active_meeting_of_user (Some "u-1") 50000
              (generated "m-2" 50000) retro_ids retro_form (answering [] two_users)
              "Retro has been created with 1 participants" eq_refl eq_refl)
    as [u [Hu [_ [_ [_ Hactive]]]]].
  injection Hu as <-. exact Hactive.
Defined.

Lemma aggregates_grow_witness :
  grows (participants standup) (participants (cl_store client_stopped)).
Proof.
  apply (aggregates_grow_when_stop_acts_on_stored_row client_opened client_stopped
           eq_refl).
  - apply map_Forall_empty.
  - exact client_run.
Defined.

(** * Further properties of the components *)

(** ** formatTime *)

Lemma toString_inj a b : toString a = toString b -> a = b.
Proof.
  unfold toString. intros H.
  assert (Hnn : forall z, Z.to_int z <> Decimal.Pos Decimal.Nil /\
                          Z.to_int z <> Decimal.Neg Decimal.Nil).
  { intros [|p|p]; cbn; split; try discriminate; intros E; injection E as E;
      exact (Unsigned.to_uint_nonnil p E). }
  apply DecimalZ.to_int_inj.
  assert (Ha := NilZero.isi (Z.to_int a) (proj1 (Hnn a)) (proj2 (Hnn a))).
  assert (Hb := NilZero.isi (Z.to_int b) (proj1 (Hnn b)) (proj2 (Hnn b))).
  rewrite H in Ha. congruence.
Qed.

Lemma length_append (s t : string) :
  String.length (String.append s t) = (String.length s + String.length t)%nat.
Proof.
  induction s as [|c s IH]; [reflexivity|].
  change (S (String.length (String.append s t))
          = S (String.length s + String.length t)). now rewrite IH.
Qed.

Lemma append_cancel (s1 s2 t1 t2 : string) :
  String.append s1 t1 = String.append s2 t2 ->
  String.length t1 = String.length t2 ->
  s1 = s2 /\ t1 = t2.
Proof.
  revert s2. induction s1 as [|c s1 IH]; intros [|c' s2] H Hlen.
  - auto.
  - exfalso. change (t1 = String c' (String.append s2 t2)) in H.
    rewrite H in Hlen. cbn [String.length] in Hlen.
    rewrite length_append in Hlen. lia.
  - exfalso. change (String c (String.append s1 t1) = t2) in H.
    rewrite <- H in Hlen. cbn [String.length] in Hlen.
    rewrite length_append in Hlen. lia.
  - change (String c (String.append s1 t1) = String c' (String.append s2 t2)) in H.
    injection H as -> H. destruct (IH s2 H Hlen) as [-> ->]. auto.
Qed.

Lemma seconds_field_length k :
  (k < 60)%nat -> String.length (seconds_field k) = 2%nat.
Proof.
  intros Hk.
  assert (H : forallb (fun k => Nat.eqb (String.length (seconds_field k)) 2) (seq 0 60)
              = true) by (vm_compute; reflexivity).
  rewrite forallb_forall in H. apply Nat.eqb_eq, H, in_seq. lia.
Qed.

Lemma seconds_field_inj j k :
  (j < 60)%nat -> (k < 60)%nat -> seconds_field j = seconds_field k -> j = k.
Proof.
  intros Hj Hk E.
  assert (H : forallb (fun j => forallb (fun k =>
                implb (String.eqb (seconds_field j) (seconds_field k)) (Nat.eqb j k))
                (seq 0 60)) (seq 0 60) = true) by (vm_compute; reflexivity).
  rewrite forallb_forall in H.
  assert (Hj' : In j (seq 0 60)) by (apply in_seq; lia).
  specialize (H j Hj'). rewrite forallb_forall in H.
  assert (Hk' : In k (seq 0 60)) by (apply in_seq; lia).
  specialize (H k Hk'). apply String.eqb_eq in E. rewrite E in H.
  now apply Nat.eqb_eq.
Qed.

Lemma formatTime_fields seconds :
  0 <= seconds ->
  formatTime seconds =
    String.append (toString (seconds / 60))
      (String.append ":" (seconds_field (Z.to_nat (seconds mod 60)))).
Proof.
  intros H. unfold formatTime, seconds_field.
  rewrite Z.rem_mod_nonneg by lia.
  rewrite Z2Nat.id; [reflexivity|]. apply Z.mod_pos_bound. lia.
Qed.

(** X1. For counts of seconds that are not negative, [formatTime] loses
    nothing: two counts written the same are the same count. *)
Theorem formatTime_injective a b :
  0 <= a -> 0 <= b -> formatTime a = formatTime b -> a = b.
Proof.
  intros Ha Hb E. rewrite (formatTime_fields a Ha), (formatTime_fields b Hb) in E.
  assert (Hma : (Z.to_nat (a mod 60) < 60)%nat)
    by (pose proof (Z.mod_pos_bound a 60); lia).
  assert (Hmb : (Z.to_nat (b mod 60) < 60)%nat)
    by (pose proof (Z.mod_pos_bound b 60); lia).
  apply append_cancel in E.
  - destruct E as [Emin Esec]. apply toString_inj in Emin.
    change (String ":" (seconds_field (Z.to_nat (a mod 60)))
            = String ":" (seconds_field (Z.to_nat (b mod 60)))) in Esec.
    injection Esec as Esec. apply seconds_field_inj in Esec; [|assumption..].
    pose proof (Z.mod_pos_bound a 60). pose proof (Z.mod_pos_bound b 60).
    rewrite (Z.div_mod a 60), (Z.div_mod b 60) by lia. lia.
  - change (S (String.length (seconds_field (Z.to_nat (a mod 60))))
            = S (String.length (seconds_field (Z.to_nat (b mod 60))))).
    now rewrite !seconds_field_length.
Qed.

(** X2. For a count that is not negative, the text is the minutes, a colon,
    and the seconds of the minute on exactly two characters: three characters
    more than the minutes take. *)
Theorem formatTime_two_digit_seconds seconds :
  0 <= seconds ->
  String.length (formatTime seconds)
  = (String.length (toString (seconds / 60)) + 3)%nat.
Proof.
  intros H. rewrite (formatTime_fields seconds H), length_append.
  change (String.append ":" ?s) with (String ":" s). cbn [String.length].
  rewrite seconds_field_length; [lia|].
  pose proof (Z.mod_pos_bound seconds 60). lia.
Qed.

(** ** ParticipantTimer: failures, frames and round trips *)

Lemma request_first_accepted {A} (f : Db -> option (A * Db)) w :
  first_accepted (script w) = true ->
  request f w =
    match f (store w) with
    | Some (a, d) => (Data a, {| store := d; script := tl (script w) |})
    | None => (Error, {| store := store w; script := tl (script w) |})
    end.
Proof.
  unfold request, first_accepted. destruct (script w) as [|[] l]; try reflexivity.
  discriminate.
Qed.

Lemma cleared_no_speaker meetingId (rows : list Participant) :
  List.filter (speaking_in meetingId)
    (update_where (fun r => String.eqb (p_meeting_id r) meetingId)
       (set_is_currently_speaking false) rows) = [].
Proof.
  unfold update_where. induction rows as [|a rows IH]; [reflexivity|].
  cbn [map List.filter]. rewrite IH. unfold speaking_in.
  destruct (String.eqb (p_meeting_id a) meetingId) eqn:E;
    cbn [set_is_currently_speaking p_meeting_id p_is_currently_speaking];
    rewrite E; reflexivity.
Qed.

Lemma request_keeps_participants {A} (f : Db -> option (A * Db)) w r w' :
  (forall d a d', f d = Some (a, d') -> participants d' = participants d) ->
  request f w = (r, w') -> participants (store w') = participants (store w).
Proof.
  intros Hf E. apply request_inv in E.
  destruct E as [[_ ->] | [a [_ E]]]; [reflexivity|]. exact (Hf _ _ _ E).
Qed.

(** Discharge the side condition of [request_keeps_participants] for a call
    on the ledger. *)
Ltac keeps_participants_call :=
  let H := fresh "H" in
  intros ? ? ? H;
  repeat match type of H with
         | context [match ?x with _ => _ end] => destruct x
         end;
  try discriminate H;
  injection H as _ <-; reflexivity.

(** X3. When the first call of [startSpeaking] is accepted and the run ends
    with its error message, the timer of the card is as it was and the
    participants are the stored ones with the flag cleared throughout the
    meeting: nobody is left marked as speaking there. *)
Theorem startSpeaking_failed_leaves_no_speaker participant meetingId now g st w :
  first_accepted (script w) = true ->
  snd (fst (startSpeaking participant meetingId now g st w)) <> None ->
  let out := startSpeaking participant meetingId now g st w in
  fst (fst out) = st /\
  snd (fst out) = Some (Toast "Error" "Failed to start speaking session") /\
  participants (store (snd out))
    = update_where (fun r => String.eqb (p_meeting_id r) meetingId)
        (set_is_currently_speaking false) (participants (store w)) /\
  List.filter (speaking_in meetingId) (participants (store (snd out))) = [].
Proof.
  intros Hfirst. unfold startSpeaking, bind, ret.
  rewrite (request_first_accepted _ w Hfirst).
  cbn [store script participants with_participants].
  set (w0 := {| store := with_participants _ (store w); script := _ |}).
  assert (H0 : participants (store w0)
               = update_where (fun r => String.eqb (p_meeting_id r) meetingId)
                   (set_is_currently_speaking false) (participants (store w)))
    by reflexivity.
  clearbody w0.
  assert (Hend : forall w', participants (store w') = participants (store w0) ->
            participants (store w')
              = update_where (fun r => String.eqb (p_meeting_id r) meetingId)
                  (set_is_currently_speaking false) (participants (store w)) /\
            List.filter (speaking_in meetingId) (participants (store w')) = []).
  { intros w' ->. rewrite H0. split; [reflexivity|apply cleared_no_speaker]. }
  destruct (request _ w0) as [[[|i ids]|] w1] eqn:E1;
    (apply request_keeps_participants in E1; [|intros ? ? ? [= _ <-]; reflexivity]).
  - destruct (request _ w1) as [[news|] w2] eqn:E2.
    + destruct (request _ w2). cbn. intros Hn. now elim Hn.
    + apply request_keeps_participants in E2; [|keeps_participants_call].
      cbn [fst snd]. intros _. repeat split; apply Hend; congruence.
  - destruct (request _ w1) as [r2 w2] eqn:E2.
    apply request_keeps_participants in E2; [|keeps_participants_call].
    destruct (request _ w2) as [[news|] w3] eqn:E3.
    + destruct (request _ w3). cbn. intros Hn. now elim Hn.
    + apply request_keeps_participants in E3; [|keeps_participants_call].
      cbn [fst snd]. intros _. repeat split; apply Hend; congruence.
  - destruct (request _ w1) as [[news|] w2] eqn:E2.
    + destruct (request _ w2). cbn. intros Hn. now elim Hn.
    + apply request_keeps_participants in E2; [|keeps_participants_call].
      cbn [fst snd]. intros _. repeat split; apply Hend; congruence.
Qed.

Lemma listed_open_session meetingId rows i :
  In i (open_session_ids meetingId rows) ->
  exists s, In s rows /\ s_id s = i /\ s_meeting_id s = meetingId.
Proof.
  unfold open_session_ids. rewrite in_map_iff. intros [s [Hid Hs]].
  apply filter_In in Hs. destruct Hs as [Hs Hc]. apply andb_true_iff in Hc.
  destruct Hc as [Hm _]. apply String.eqb_eq in Hm. now exists s.
Qed.

(** X4. A run of [startSpeaking] in which every call is accepted stays
    inside its meeting: the participants of other meetings (other than the
    card's own) and the sessions of other meetings are in the store as they
    were, and so are all meetings and questions. *)
Theorem startSpeaking_other_meetings_untouched participant meetingId now g st w :
  all_accept (script w) = true ->
  fresh s_id (gen_id g) (speaking_sessions (store w)) = true ->
  unique s_id (speaking_sessions (store w)) = true ->
  let d' := store (snd (startSpeaking participant meetingId now g st w)) in
  (forall r, In r (participants (store w)) ->
             p_meeting_id r <> meetingId -> p_id r <> p_id participant ->
             In r (participants d')) /\
  (forall s, In s (speaking_sessions (store w)) ->
             s_meeting_id s <> meetingId -> In s (speaking_sessions d')) /\
  meetings d' = meetings (store w) /\
  questions d' = questions (store w).
Proof.
  intros Hacc Hfresh Hu d'. subst d'.
  destruct (startSpeaking_accepted participant meetingId now g st w Hacc Hfresh)
    as [rest [_ ->]].
  cbn [fst snd store participants speaking_sessions meetings questions].
  repeat split.
  - intros r Hr Hm Hid.
    pose proof (In_update_where (fun x => String.eqb (p_meeting_id x) meetingId)
      (set_is_currently_speaking false) _ r Hr) as H1. cbv beta in H1.
    apply String.eqb_neq in Hm. rewrite Hm in H1.
    pose proof (In_update_where (fun x => String.eqb (p_id x) (p_id participant))
      (set_is_currently_speaking true) _ r H1) as H2. cbv beta in H2.
    apply String.eqb_neq in Hid. now rewrite Hid in H2.
  - intros s Hs Hm. apply in_or_app. left.
    pose proof (In_update_where
      (fun x => existsb (String.eqb (s_id x))
                  (open_session_ids meetingId (speaking_sessions (store w))))
      (set_ended_at now) _ s Hs) as H. cbv beta in H.
    destruct (existsb _ _) eqn:E; [|exact H].
    apply existsb_exists in E. destruct E as [i [Hi Heq]].
    apply String.eqb_eq in Heq.
    destruct (listed_open_session _ _ _ Hi) as [s' [Hs' [Hid' Hm']]].
    assert (s = s') by (apply (unique_inj s_id _ s s' Hu Hs Hs'); congruence).
    subst s'. contradiction.
Qed.

Lemma ticks_keep_session participant st (n : nat) :
  activeSessionId (Nat.iter n (tick participant) st) = activeSessionId st.
Proof.
  induction n as [|n IH]; [reflexivity|].
  rewrite Nat.iter_succ. unfold tick at 1.
  destruct (p_is_currently_speaking participant); exact IH.
Qed.

(** X5. Idle, speaking, idle again: after a start and a stop from the card
    as fetched after the start, [n] ticks later, all calls accepted, nobody
    in the meeting is marked as speaking, no session of the meeting is open,
    the session of this turn is closed with duration [n], and the
    participant's totals are those of the card plus [n] seconds and one
    session. *)
Theorem start_then_stop_returns_to_idle
    participant meetingId now g st w card now' sc (n : nat) :
  all_accept (script w) = true ->
  fresh s_id (gen_id g) (speaking_sessions (store w)) = true ->
  truthy (gen_id g) = true ->
  In card (participants (store (snd (startSpeaking participant meetingId now g st w)))) ->
  p_id card = p_id participant ->
  all_accept sc = true ->
  let started := startSpeaking participant meetingId now g st w in
  let stopped :=
    stopSpeaking card now' (Nat.iter n (tick card) (fst (fst started)))
      (answering sc (store (snd started))) in
  List.filter (speaking_in meetingId) (participants (store (snd stopped))) = [] /\
  open_sessions_in meetingId (speaking_sessions (store (snd stopped))) = [] /\
  In {| s_id := gen_id g; s_participant_id := p_id participant;
        s_meeting_id := meetingId; s_started_at := gen_now g;
        s_ended_at := Some now'; s_duration := Some (Z.of_nat n) |}
     (speaking_sessions (store (snd stopped))) /\
  (forall r', In r' (participants (store (snd stopped))) ->
              p_id r' = p_id participant ->
              p_total_speaking_time r' = p_total_speaking_time card + Z.of_nat n /\
              p_speaking_sessions r' = p_speaking_sessions card + 1).
Proof.
  intros Hacc Hfresh Hid Hcard Hsame Hsc started stopped. subst started stopped.
  destruct (startSpeaking_accepted participant meetingId now g st w Hacc Hfresh)
    as [rest [_ E]].
  rewrite E in *. cbn [fst snd store participants] in *.
  assert (Hspeaking : p_is_currently_speaking card = true).
  { apply update_where_hit in Hcard. destruct Hcard as [r [_ Hr]].
    destruct (String.eqb (p_id r) (p_id participant)) eqn:Er; [now subst card|].
    apply String.eqb_neq in Er. subst card. contradiction. }
  set (st' := Nat.iter n (tick card)
                {| currentSessionTime := 0; activeSessionId := Some (gen_id g) |}).
  assert (Hn : currentSessionTime st' = Z.of_nat n).
  { unfold st'. rewrite (ticks_count card _ n Hspeaking). reflexivity. }
  assert (Hheld : held_session st' = Some (gen_id g)).
  { unfold held_session, st'. rewrite ticks_keep_session.
    cbn [activeSessionId]. now rewrite Hid. }
  match goal with
  | |- context [stopSpeaking card now' st' ?w1] =>
      destruct (stopSpeaking_accepted card now' st' w1 Hsc) as [rest' [_ E']]
  end.
  rewrite E'. cbn [fst snd store participants speaking_sessions answering].
  rewrite Hheld, Hn, Hsame.
  split; [|split; [|split]].
  - unfold update_where. rewrite !map_map. apply filter_map_none.
    intros r _. unfold speaking_in.
    destruct (String.eqb (p_meeting_id r) meetingId) eqn:Em;
      cbn [p_id set_is_currently_speaking];
      destruct (String.eqb (p_id r) (p_id participant)) eqn:Ei;
      cbn [p_id set_is_currently_speaking set_stats p_meeting_id
           p_is_currently_speaking];
      rewrite ?Ei; cbn [set_stats set_is_currently_speaking p_meeting_id
                        p_is_currently_speaking];
      rewrite ?Em; try reflexivity; apply andb_false_r.
  - unfold open_sessions_in, update_where. rewrite map_app, List.filter_app.
    cbn [map List.filter new_session s_id]. rewrite String.eqb_refl.
    cbn [set_ended_at_duration s_meeting_id s_ended_at is_null].
    rewrite andb_false_r, app_nil_r, map_map. apply filter_map_none.
    intros s Hs.
    destruct (existsb _ _) eqn:Ex.
    + cbn [set_ended_at s_id].
      destruct (String.eqb (s_id s) (gen_id g));
        cbn [set_ended_at_duration set_ended_at s_meeting_id s_ended_at is_null];
        apply andb_false_r.
    + destruct (String.eqb (s_id s) (gen_id g));
        [cbn [set_ended_at_duration s_meeting_id s_ended_at is_null];
         apply andb_false_r|].
      destruct (String.eqb (s_meeting_id s) meetingId) eqn:Em; [|reflexivity].
      destruct (s_ended_at s) eqn:Ee; [reflexivity|].
      apply String.eqb_eq in Em.
      rewrite (open_session_listed meetingId _ s Hs Em Ee) in Ex. discriminate.
  - pose proof (In_update_where (fun x => String.eqb (s_id x) (gen_id g))
      (set_ended_at_duration now' (Z.of_nat n))
      (update_where
         (fun s => existsb (String.eqb (s_id s))
                     (open_session_ids meetingId (speaking_sessions (store w))))
         (set_ended_at now) (speaking_sessions (store w))
       ++ [new_session (p_id participant) meetingId g])
      (new_session (p_id participant) meetingId g)) as H.
    cbv beta in H. cbn [new_session s_id] in H. rewrite String.eqb_refl in H.
    apply H. apply in_or_app. right. left. reflexivity.
  - intros r' Hr' Hr'id. apply update_where_hit in Hr'.
    destruct Hr' as [r [_ ->]].
    destruct (String.eqb (p_id r) (p_id participant)) eqn:Ei.
    + cbn [set_stats p_total_speaking_time p_speaking_sessions]. auto.
    + apply String.eqb_neq in Ei. contradiction.
Qed.

Lemma update_where_idem {A} (cond : A -> bool) (patch : A -> A) (rows : list A) :
  (forall r, cond (patch r) = cond r) ->
  (forall r, patch (patch r) = patch r) ->
  update_where cond patch (update_where cond patch rows) = update_where cond patch rows.
Proof.
  intros Hc Hp. unfold update_where. rewrite map_map. apply map_ext.
  intros r. destruct (cond r) eqn:E; [rewrite Hc, E; apply Hp|now rewrite E].
Qed.

(** X6. A second click on Stop from the same rendering of the card (the same
    card, the same local state) writes the same totals again: the seconds
    are credited once and one session is counted, not two. *)
Theorem stopSpeaking_twice_credits_once card now now' st w sc :
  all_accept (script w) = true ->
  all_accept sc = true ->
  let once := stopSpeaking card now st w in
  let twice := stopSpeaking card now' st (answering sc (store (snd once))) in
  participants (store (snd twice)) = participants (store (snd once)).
Proof.
  intros Hacc Hsc once twice. subst once twice.
  destruct (stopSpeaking_accepted card now st w Hacc) as [rest [_ E]].
  rewrite E. cbn [snd store].
  match goal with
  | |- context [stopSpeaking card now' st ?w1] =>
      destruct (stopSpeaking_accepted card now' st w1 Hsc) as [rest' [_ E']]
  end.
  rewrite E'. cbn [snd store participants answering].
  apply update_where_idem; reflexivity.
Qed.

(** X7. On the card fetched after an accepted start, the figure shown [n]
    ticks later is [formatTime n]: the count restarts from 0:00 and advances
    by one second per tick. *)
Theorem timer_display_counts_from_zero participant meetingId now g st w card (n : nat) :
  all_accept (script w) = true ->
  fresh s_id (gen_id g) (speaking_sessions (store w)) = true ->
  In card (participants (store (snd (startSpeaking participant meetingId now g st w)))) ->
  p_id card = p_id participant ->
  timer_display card
    (Nat.iter n (tick card) (fst (fst (startSpeaking participant meetingId now g st w))))
  = formatTime (Z.of_nat n).
Proof.
  intros Hacc Hfresh Hcard Hsame.
  destruct (startSpeaking_accepted participant meetingId now g st w Hacc Hfresh)
    as [rest [_ E]].
  rewrite E in *. cbn [fst snd store participants] in *.
  assert (Hspeaking : p_is_currently_speaking card = true).
  { apply update_where_hit in Hcard. destruct Hcard as [r [_ Hr]].
    destruct (String.eqb (p_id r) (p_id participant)) eqn:Er; [now subst card|].
    apply String.eqb_neq in Er. subst card. contradiction. }
  unfold timer_display. rewrite Hspeaking, (ticks_count card _ n Hspeaking).
  reflexivity.
Qed.

(** ** ParticipantsNameList: a click on a name, all calls accepted

    Accepted, that is, where the store has a say: the call on the ledger is
    refused by the table itself. *)

Lemma toggle_start_flagged shown meetingId participantId now g active w participant :
  all_accept (script w) = true ->
  find (fun p => String.eqb (p_id p) participantId) shown = Some participant ->
  p_is_currently_speaking participant = false ->
  exists rest,
    toggleParticipantSpeaking shown meetingId participantId now g active w =
      (toggle_failed active,
       {| store :=
            {| meetings := meetings (store w);
               participants :=
                 update_where (fun r => String.eqb (p_id r) participantId)
                   (set_is_currently_speaking true)
                   (update_where (fun r => String.eqb (p_meeting_id r) meetingId)
                      (set_is_currently_speaking false) (participants (store w)));
               speaking_sessions := speaking_sessions (store w);
               questions := questions (store w) |};
          script := rest |}).
Proof.
  intros Hacc Hfind Hquiet. unfold toggleParticipantSpeaking, bind, ret.
  rewrite Hfind, Hquiet. cbn [negb].
  accept_request. accept_request.
  rewrite request_on_unknown by reflexivity.
  cbn [store script with_participants meetings participants speaking_sessions questions].
  eexists. reflexivity.
Qed.

Lemma toggle_stop_unflagged shown meetingId participantId now g active w participant :
  all_accept (script w) = true ->
  find (fun p => String.eqb (p_id p) participantId) shown = Some participant ->
  p_is_currently_speaking participant = true ->
  exists rest,
    toggleParticipantSpeaking shown meetingId participantId now g active w =
      (toggle_failed active,
       {| store :=
            {| meetings := meetings (store w);
               participants :=
                 update_where (fun r => String.eqb (p_id r) participantId)
                   (set_is_currently_speaking false) (participants (store w));
               speaking_sessions := speaking_sessions (store w);
               questions := questions (store w) |};
          script := rest |}).
Proof.
  intros Hacc Hfind Hspeaking. unfold toggleParticipantSpeaking, bind, ret.
  rewrite Hfind, Hspeaking. cbn [negb].
  accept_request.
  rewrite request_on_unknown by reflexivity.
  cbn [store script with_participants meetings participants speaking_sessions questions].
  eexists. reflexivity.
Qed.

(** X8. A click on the name of a participant shown as silent, with the
    calls on the participants accepted, leaves that participant stored as
    the one speaker of the meeting, and yet ends with the error message:
    the session it sends names [start_time], the ledger takes no row, the
    view is not told ([onActiveChange] is not reached) and the component's
    own [activeParticipant] stays as it was. *)
Theorem toggle_start_flags_speaker_without_session
    shown meetingId participantId now g active w participant r :
  all_accept (script w) = true ->
  find (fun p => String.eqb (p_id p) participantId) shown = Some participant ->
  p_is_currently_speaking participant = false ->
  unique p_id (participants (store w)) = true ->
  In r (participants (store w)) ->
  p_id r = participantId ->
  p_meeting_id r = meetingId ->
  let out := toggleParticipantSpeaking shown meetingId participantId now g active w in
  List.filter (speaking_in meetingId) (participants (store (snd out)))
    = [set_is_currently_speaking true r] /\
  speaking_sessions (store (snd out)) = speaking_sessions (store w) /\
  toggle_toast (fst out) = Some (Toast "Error" "Failed to update speaking status") /\
  toggle_change (fst out) = None /\
  toggle_active (fst out) = active.
Proof.
  intros Hacc Hfind Hquiet Hu Hin Hid Hm out. subst out.
  destruct (toggle_start_flagged shown meetingId participantId now g active w
              participant Hacc Hfind Hquiet) as [rest ->].
  cbn [fst snd store participants speaking_sessions toggle_failed
       toggle_change toggle_toast toggle_active].
  repeat split.
  rewrite <- Hid. now apply clear_then_set_sole.
Qed.

(** X9. A turn taken through the list of names: a click that starts and,
    once the list shows the participant as speaking, a click that stops, the
    calls on the participants accepted. Afterwards nobody in the meeting is
    marked as speaking, every participant has the totals it had and the
    ledger is what it was: the turn has left no trace but the two error
    messages. *)
Theorem toggle_start_then_stop
    shown shown' meetingId participantId now now' g g' active active' w sc
    participant participant' :
  all_accept (script w) = true ->
  find (fun p => String.eqb (p_id p) participantId) shown = Some participant ->
  p_is_currently_speaking participant = false ->
  find (fun p => String.eqb (p_id p) participantId) shown' = Some participant' ->
  p_is_currently_speaking participant' = true ->
  all_accept sc = true ->
  let started :=
    toggleParticipantSpeaking shown meetingId participantId now g active w in
  let stopped :=
    toggleParticipantSpeaking shown' meetingId participantId now' g' active'
      (answering sc (store (snd started))) in
  List.filter (speaking_in meetingId) (participants (store (snd stopped))) = [] /\
  aggregates (store (snd stopped)) = aggregates (store w) /\
  speaking_sessions (store (snd stopped)) = speaking_sessions (store w) /\
  toggle_toast (fst started) = Some (Toast "Error" "Failed to update speaking status") /\
  toggle_toast (fst stopped) = Some (Toast "Error" "Failed to update speaking status").
Proof.
  intros Hacc Hfind Hquiet Hfind' Hspeaking Hsc started stopped.
  subst started stopped.
  destruct (toggle_start_flagged shown meetingId participantId now g active w
              participant Hacc Hfind Hquiet) as [rest ->].
  cbn [fst snd store].
  match goal with
  | |- context [toggleParticipantSpeaking shown' meetingId participantId now' g'
                  active' ?w1] =>
      destruct (toggle_stop_unflagged shown' meetingId participantId now' g' active'
                  w1 participant' Hsc Hfind' Hspeaking) as [rest' ->]
  end.
  cbn [fst snd store participants speaking_sessions answering toggle_failed toggle_toast].
  split; [|split; [|repeat split]].
  - unfold update_where. rewrite !map_map. apply filter_map_none.
    intros r _. unfold speaking_in.
    destruct (String.eqb (p_meeting_id r) meetingId) eqn:Em;
      cbn [p_id set_is_currently_speaking];
      destruct (String.eqb (p_id r) participantId) eqn:Ei;
      cbn [p_id set_is_currently_speaking p_meeting_id p_is_currently_speaking];
      rewrite ?Ei; cbn [set_is_currently_speaking p_meeting_id
                        p_is_currently_speaking];
      rewrite ?Em; try reflexivity; apply andb_false_r.
  - unfold aggregates. cbn [participants]. rewrite !update_where_field; reflexivity.
Qed.

(** ** ParticipantsNameList: adding and removing *)

(** X10. [addParticipant] with a blank name does nothing and says nothing.
    With a name, every call accepted and a new identifier, it adds exactly
    one row: this meeting, the name without the white space around it (so
    not empty), zero totals, not speaking; it empties the field and
    confirms. *)
Theorem addParticipant_adds_one_trimmed_row meetingId g form w :
  (blank (newParticipantName form) = true ->
   addParticipant meetingId g form w = (form, None, w)) /\
  (blank (newParticipantName form) = false ->
   all_accept (script w) = true ->
   fresh p_id (gen_id g) (participants (store w)) = true ->
   let out := addParticipant meetingId g form w in
   participants (store (snd out))
     = participants (store w) ++
       [ {| p_id := gen_id g; p_meeting_id := meetingId;
            p_name := trim (newParticipantName form);
            p_total_speaking_time := 0; p_speaking_sessions := 0;
            p_is_currently_speaking := false |} ] /\
   truthy (trim (newParticipantName form)) = true /\
   newParticipantName (fst (fst out)) = "" /\
   snd (fst out) = Some (Toast "Success" "Participant added successfully") /\
   speaking_sessions (store (snd out)) = speaking_sessions (store w)).
Proof.
  unfold blank. split.
  - intros Hb. unfold addParticipant. now rewrite Hb.
  - intros Hb Hacc Hfresh. unfold addParticipant. rewrite Hb.
    unfold bind, ret. accept_request.
    match goal with
    | |- context [insert_row p_id ?row ?rows] =>
        rewrite (insert_row_fresh p_id row rows) by exact Hfresh
    end.
    cbn [fst snd store participants speaking_sessions with_participants
         newParticipantName].
    apply negb_false_iff in Hb. auto.
Qed.

(** X11. An accepted [removeParticipant] deletes the participant and, by the
    cascade, its sessions: no row of either table carries the identifier
    afterwards, every other participant and every session of another
    participant is in the store as it was, and if every session belonged to
    a stored participant before, that is still so. *)
Theorem removeParticipant_cascades participantId w :
  all_accept (script w) = true ->
  let out := removeParticipant participantId w in
  let d' := store (snd out) in
  fst out = Some (Toast "Success" "Participant removed successfully") /\
  (forall r, In r (participants d') <->
             In r (participants (store w)) /\ p_id r <> participantId) /\
  (forall s, In s (speaking_sessions d') <->
             In s (speaking_sessions (store w)) /\ s_participant_id s <> participantId) /\
  (sessions_refer (store w) -> sessions_refer d').
Proof.
  intros Hacc out d'. subst out d'. unfold removeParticipant, bind, ret.
  accept_request. cbn [fst snd store delete_participant participants speaking_sessions].
  assert (Hp : forall r, In r (List.filter
                 (fun p => negb (String.eqb (p_id p) participantId))
                 (participants (store w))) <->
               In r (participants (store w)) /\ p_id r <> participantId).
  { intros r. rewrite filter_In, negb_true_iff, String.eqb_neq. reflexivity. }
  assert (Hs : forall s, In s (List.filter
                 (fun s => negb (String.eqb (s_participant_id s) participantId))
                 (speaking_sessions (store w))) <->
               In s (speaking_sessions (store w)) /\ s_participant_id s <> participantId).
  { intros s. rewrite filter_In, negb_true_iff, String.eqb_neq. reflexivity. }
  repeat split; try (apply Hp; assumption); try (apply Hs; assumption).
  intros Href s Hin. cbn [speaking_sessions participants] in *.
  apply Hs in Hin. destruct Hin as [Hin Hne].
  destruct (Href s Hin) as [p [Hp' Hid]]. exists p. split; [|exact Hid].
  apply Hp. split; [exact Hp'|congruence].
Qed.

(** ** Ordering *)

Lemma insert_desc_perm {A} (key : A -> Z) x (l : list A) :
  Permutation (insert_desc key x l) (x :: l).
Proof.
  induction l as [|y l IH]; [reflexivity|].
  cbn [insert_desc]. destruct (Z.ltb (key x) (key y)); [|reflexivity].
  rewrite IH. apply perm_swap.
Qed.

Lemma sort_desc_perm {A} (key : A -> Z) (l : list A) :
  Permutation (sort_desc key l) l.
Proof.
  induction l as [|x l IH]; [reflexivity|].
  cbn [sort_desc fold_right]. fold (sort_desc key l).
  rewrite insert_desc_perm. now apply perm_skip.
Qed.

Lemma insert_desc_sorted {A} (key : A -> Z) x (l : list A) :
  StronglySorted (fun a b => key b <= key a) l ->
  StronglySorted (fun a b => key b <= key a) (insert_desc key x l).
Proof.
  induction 1 as [|y l Hl IH Hy]; cbn [insert_desc].
  - constructor; constructor.
  - destruct (Z.ltb_spec (key x) (key y)) as [Hlt | Hge].
    + constructor; [exact IH|].
      apply List.Forall_forall. intros z Hz.
      apply (Permutation_in _ (insert_desc_perm key x l)) in Hz.
      destruct Hz as [<- | Hz]; [lia|].
      rewrite List.Forall_forall in Hy. now apply Hy.
    + constructor; [constructor; assumption|].
      constructor; [exact Hge|].
      eapply List.Forall_impl; [|exact Hy]. cbv beta. intros z Hz. lia.
Qed.

Lemma sort_desc_sorted {A} (key : A -> Z) (l : list A) :
  StronglySorted (fun a b => key b <= key a) (sort_desc key l).
Proof.
  induction l as [|x l IH]; [constructor|].
  cbn [sort_desc fold_right]. now apply insert_desc_sorted.
Qed.

Lemma insert_desc_stable {A} (key : A -> Z) v x (l : list A) :
  List.filter (fun a => Z.eqb (key a) v) (insert_desc key x l)
  = List.filter (fun a => Z.eqb (key a) v) (x :: l).
Proof.
  induction l as [|y l IH]; [reflexivity|].
  cbn [insert_desc]. destruct (Z.ltb_spec (key x) (key y)) as [Hlt | Hge];
    [|reflexivity].
  cbn [List.filter] in *. rewrite IH.
  destruct (Z.eqb_spec (key x) v), (Z.eqb_spec (key y) v); try reflexivity. lia.
Qed.

Lemma sort_desc_stable {A} (key : A -> Z) v (l : list A) :
  List.filter (fun a => Z.eqb (key a) v) (sort_desc key l)
  = List.filter (fun a => Z.eqb (key a) v) l.
Proof.
  induction l as [|x l IH]; [reflexivity|].
  cbn [sort_desc fold_right]. fold (sort_desc key l).
  rewrite insert_desc_stable. cbn [List.filter]. now rewrite IH.
Qed.

Lemma filter_perm {A} (f : A -> bool) (l l' : list A) :
  Permutation l l' -> Permutation (List.filter f l) (List.filter f l').
Proof.
  induction 1 as [|x l l' _ IH|x y l|l l' l'' _ IH1 _ IH2]; cbn [List.filter].
  - reflexivity.
  - destruct (f x); [now apply perm_skip|exact IH].
  - destruct (f x), (f y); try reflexivity. apply perm_swap.
  - now rewrite IH1.
Qed.

Lemma find_of_sole {A} (f : A -> bool) (l : list A) x :
  List.filter f l = [x] -> find f l = Some x.
Proof.
  induction l as [|a l IH]; [discriminate|].
  cbn [List.filter find]. destruct (f a); [now intros [= <- _]|exact IH].
Qed.

Lemma filter_filter_and {A} (f g : A -> bool) (l : list A) :
  List.filter f (List.filter g l) = List.filter (fun x => g x && f x) l.
Proof.
  induction l as [|a l IH]; [reflexivity|].
  cbn [List.filter]. destruct (g a); cbn [List.filter andb]; now rewrite IH.
Qed.

(** The one row that passes a test is the first that [find] meets, in
    whatever order the rows are sorted. *)
Lemma find_sole_sorted {A} (key : A -> Z) (f : A -> bool) (l : list A) x :
  List.filter f l = [x] -> find f (sort_desc key l) = Some x.
Proof.
  intros H. apply find_of_sole. apply Permutation_length_1_inv.
  rewrite <- H. symmetry. apply filter_perm. apply sort_desc_perm.
Qed.

(** ** ActiveMeetingView *)

(** X12. The leaderboard shows every fetched participant exactly once, with
    its stored total (plus the live seconds for a speaker), largest total
    first, and participants with equal totals in the order they were
    fetched. *)
Theorem leaderboard_ranks_everyone (localCounters : gmap string Counter) now shown :
  let board := leaderboard localCounters now shown in
  Permutation (map fst board) shown /\
  StronglySorted (fun a b => snd b <= snd a) board /\
  (forall row, In row board -> snd row = displayTime localCounters now (fst row)) /\
  (forall row, In row board -> p_is_currently_speaking (fst row) = false ->
               snd row = p_total_speaking_time (fst row)) /\
  (forall v, List.filter (fun row => Z.eqb (snd row) v) board
             = List.filter (fun row => Z.eqb (snd row) v)
                 (withLive localCounters now shown)).
Proof.
  intros board. subst board. unfold leaderboard.
  assert (Hrows : forall row,
            In row (sort_desc snd (withLive localCounters now shown)) ->
            snd row = displayTime localCounters now (fst row)).
  { intros row Hrow.
    apply (Permutation_in _ (sort_desc_perm snd _)) in Hrow.
    unfold withLive in Hrow. apply in_map_iff in Hrow.
    destruct Hrow as [p [<- _]]. reflexivity. }
  split; [|split; [|split; [|split]]].
  - rewrite (sort_desc_perm snd). unfold withLive. rewrite map_map.
    cbn [fst]. now rewrite List.map_id.
  - apply sort_desc_sorted.
  - exact Hrows.
  - intros row Hrow Hquiet. rewrite (Hrows row Hrow). unfold displayTime.
    rewrite Hquiet. apply or_zero_id.
  - intros v. apply sort_desc_stable.
Qed.

(** X13. The width the progress bars are measured against is at least 1
    and at least every total shown: no bar divides by zero or overflows. *)
Theorem maxTotal_bounds (localCounters : gmap string Counter) now shown :
  1 <= maxTotal (withLive localCounters now shown) /\
  (forall row, In row (leaderboard localCounters now shown) ->
               snd row <= maxTotal (withLive localCounters now shown)).
Proof.
  assert (H : forall rows : list (Participant * Z),
            1 <= maxTotal rows /\ (forall row, In row rows -> snd row <= maxTotal rows)).
  { unfold maxTotal. induction rows as [|r rows [IH1 IH2]]; cbn [map fold_right].
    - split; [lia|contradiction].
    - split; [lia|]. intros row [<- | Hrow]; [lia|].
      specialize (IH2 row Hrow). lia. }
  split; [apply H|]. intros row Hrow. apply H.
  apply (Permutation_in _ (sort_desc_perm snd _)). exact Hrow.
Qed.

Lemma request_first_refused {A} (f : Db -> option (A * Db)) w :
  first_accepted (script w) = false ->
  request f w = (Error, {| store := store w; script := tl (script w) |}).
Proof.
  unfold request, first_accepted. destruct (script w) as [|[] l]; try discriminate.
  reflexivity.
Qed.

(** X14. [fetchParticipants] reads and never writes, and the view stops
    loading whatever the answer. When the store accepts the call, no error
    is shown and the list becomes the participants of the meeting, all of
    them, largest total first; when it refuses, the list stays as it was and
    the error is shown. *)
Theorem fetchParticipants_lists_the_meeting meeting_id st w :
  let out := fetchParticipants meeting_id st w in
  store (snd out) = store w /\
  view_loading (fst (fst out)) = false /\
  if first_accepted (script w) then
    snd (fst out) = None /\
    Permutation (view_participants (fst (fst out)))
      (List.filter (fun p => String.eqb (p_meeting_id p) meeting_id)
                   (participants (store w))) /\
    StronglySorted (fun a b => p_total_speaking_time b <= p_total_speaking_time a)
      (view_participants (fst (fst out)))
  else
    snd (fst out) = Some (Toast "Error" "Failed to load participants") /\
    view_participants (fst (fst out)) = view_participants st.
Proof.
  intros out. subst out. unfold fetchParticipants, bind, ret.
  destruct (first_accepted (script w)) eqn:E.
  - rewrite (request_first_accepted _ w E).
    cbn [fst snd store view_loading view_participants].
    split; [reflexivity|]. split; [reflexivity|]. split; [reflexivity|].
    split; [apply sort_desc_perm|apply sort_desc_sorted].
  - rewrite (request_first_refused _ w E).
    cbn [fst snd store view_loading view_participants]. auto.
Qed.

Lemma sync_seeds shown (localCounters : gmap string Counter) now p :
  find p_is_currently_speaking shown = Some p ->
  localCounters !! p_id p = None ->
  sync_local_counters shown localCounters now
  = {[ p_id p := {| startTime := now; baseSeconds := p_total_speaking_time p |} ]}.
Proof.
  intros Hp Hc. unfold sync_local_counters. now rewrite Hp, Hc, or_zero_id.
Qed.

(** X15. Once the effect has seeded a counter for the speaker it found, at
    instant [now], the leaderboard shows for that speaker the stored total
    plus the whole seconds elapsed since [now], and for a silent participant
    the stored total. *)
Theorem displayTime_after_sync shown (localCounters : gmap string Counter) now p k e :
  find p_is_currently_speaking shown = Some p ->
  localCounters !! p_id p = None ->
  0 <= k -> 0 <= e < 1000 ->
  let seeded := sync_local_counters shown localCounters now in
  displayTime seeded (now + 1000 * k + e) p = p_total_speaking_time p + k /\
  (forall q, p_is_currently_speaking q = false ->
             displayTime seeded (now + 1000 * k + e) q = p_total_speaking_time q).
Proof.
  intros Hp Hc Hk He seeded. subst seeded. rewrite (sync_seeds _ _ _ _ Hp Hc).
  apply find_some in Hp. destruct Hp as [_ Hsp]. split.
  - unfold displayTime, getLiveSeconds. rewrite Hsp, lookup_singleton_eq.
    cbn [startTime]. rewrite or_zero_id. f_equal.
    replace (now + 1000 * k + e - now) with (k * 1000 + e) by lia.
    rewrite Z.div_add_l by lia. rewrite Z.div_small by lia. lia.
  - intros q Hq. unfold displayTime. rewrite Hq. apply or_zero_id.
Qed.

(** X16. The effect settles in one run: run again on the same fetched list,
    at any later instant, it leaves the counters it produced. *)
Theorem sync_local_counters_settles shown (localCounters : gmap string Counter) now now' :
  sync_local_counters shown (sync_local_counters shown localCounters now) now'
  = sync_local_counters shown localCounters now.
Proof.
  unfold sync_local_counters.
  destruct (find p_is_currently_speaking shown) as [p|] eqn:Ef.
  - destruct (localCounters !! p_id p) as [c|] eqn:Ec.
    + now rewrite Ec.
    + now rewrite lookup_singleton_eq.
  - destruct (0 <? size localCounters)%nat eqn:Es.
    + rewrite map_size_empty. reflexivity.
    + now rewrite Es.
Qed.

(** X17. From a click on a name to the live clock. A click on the name of a
    silent participant, the calls on the participants accepted, ends with an
    error and tells the view nothing (X8); the flag it has written reaches
    the view through the change feed on the participants, which has the list
    fetched again. That list shows the participant as the speaker, and the
    effect run on it, the counters holding none for the participant, leaves
    the one counter: the participant's, running from the instant of the
    effect, on top of the stored total. *)
Theorem name_click_then_fetch_seeds_counter
    shown meetingId participantId now g active w participant r view sc
    (localCounters : gmap string Counter) now' :
  all_accept (script w) = true ->
  find (fun p => String.eqb (p_id p) participantId) shown = Some participant ->
  p_is_currently_speaking participant = false ->
  unique p_id (participants (store w)) = true ->
  In r (participants (store w)) ->
  p_id r = participantId ->
  p_meeting_id r = meetingId ->
  all_accept sc = true ->
  localCounters !! participantId = None ->
  let clicked :=
    toggleParticipantSpeaking shown meetingId participantId now g active w in
  let fetched :=
    fetchParticipants meetingId view (answering sc (store (snd clicked))) in
  find p_is_currently_speaking (view_participants (fst (fst fetched)))
    = Some (set_is_currently_speaking true r) /\
  sync_local_counters (view_participants (fst (fst fetched))) localCounters now'
  = {[ participantId := {| startTime := now';
                           baseSeconds := p_total_speaking_time r |} ]}.
Proof.
  intros Hacc Hfind Hquiet Hu Hin Hid Hm Hsc Hnone clicked fetched.
  subst clicked fetched.
  destruct (toggle_start_flagged shown meetingId participantId now g active w
              participant Hacc Hfind Hquiet) as [rest ->].
  cbn [snd store]. unfold fetchParticipants, bind, ret. accept_request.
  cbn [fst view_participants answering store participants].
  assert (Hfirst : find p_is_currently_speaking
            (sort_desc p_total_speaking_time
               (List.filter (fun p => String.eqb (p_meeting_id p) meetingId)
                  (update_where (fun x => String.eqb (p_id x) participantId)
                     (set_is_currently_speaking true)
                     (update_where (fun x => String.eqb (p_meeting_id x) meetingId)
                        (set_is_currently_speaking false) (participants (store w))))))
            = Some (set_is_currently_speaking true r)).
  { apply find_sole_sorted. rewrite filter_filter_and.
    rewrite <- Hid. now apply clear_then_set_sole. }
  split; [exact Hfirst|].
  rewrite (sync_seeds _ _ _ _ Hfirst).
  - cbn [set_is_currently_speaking p_id p_total_speaking_time]. now rewrite Hid.
  - cbn [set_is_currently_speaking p_id]. now rewrite Hid.
Qed.

(** ** CreateMeetingDialog: the rows of names *)

Lemma filter_index_delete index i (l : list string) :
  CreateMeetingDialog.filter_index (fun j => negb (j =? index)%nat) i l
  = if (i <=? index)%nat then delete (index - i)%nat l else l.
Proof.
  revert i. induction l as [|x l IH]; intros i;
    cbn [CreateMeetingDialog.filter_index].
  - destruct (i <=? index)%nat; reflexivity.
  - rewrite IH. destruct (Nat.eqb_spec i index) as [-> | Hne]; cbn [negb].
    + rewrite Nat.leb_refl, Nat.sub_diag.
      destruct (Nat.leb_spec (S index) index); [lia|reflexivity].
    + destruct (Nat.leb_spec i index) as [Hle | Hgt].
      * destruct (Nat.leb_spec (S i) index); [|lia].
        replace (index - i)%nat with (S (index - S i)) by lia. reflexivity.
      * destruct (Nat.leb_spec (S i) index); [lia|reflexivity].
Qed.

Lemma delete_past_end {A} (l : list A) i :
  (length l <= i)%nat -> delete i l = l.
Proof.
  revert i. induction l as [|x l IH]; intros i H; [reflexivity|].
  destruct i as [|i]; [cbn in H; lia|].
  cbn in H. change (x :: delete i l = x :: l). rewrite IH by lia. reflexivity.
Qed.

(** X18. With a single row, [removeParticipant] leaves the rows alone. With
    more, it takes out the row at the index and nothing else: the rows before
    it keep their place, the rows after it move up by one, and an index past
    the end removes nothing. *)
Theorem removeParticipant_takes_one_row index (participants : list string) :
  ((length participants <= 1)%nat ->
   CreateMeetingDialog.removeParticipant index participants = participants) /\
  ((1 < length participants)%nat ->
   (forall j, CreateMeetingDialog.removeParticipant index participants !! j
              = if (j <? index)%nat then participants !! j else participants !! S j) /\
   ((index < length participants)%nat ->
    length (CreateMeetingDialog.removeParticipant index participants)
    = (length participants - 1)%nat) /\
   ((length participants <= index)%nat ->
    CreateMeetingDialog.removeParticipant index participants = participants)).
Proof.
  unfold CreateMeetingDialog.removeParticipant. split.
  - intros H. destruct (Nat.ltb_spec 1 (length participants)); [lia|reflexivity].
  - intros H. destruct (Nat.ltb_spec 1 (length participants)); [|lia].
    rewrite filter_index_delete. cbn [Nat.leb]. rewrite Nat.sub_0_r.
    split; [|split].
    + intros j. destruct (Nat.ltb_spec j index).
      * now apply list_lookup_delete_lt.
      * now apply list_lookup_delete_ge.
    + intros Hi. rewrite length_delete; [lia|].
      apply lookup_lt_is_Some. exact Hi.
    + intros Hi. apply delete_past_end. exact Hi.
Qed.

(** X19. The dialog never runs out of rows: whatever rows are added, removed
    or rewritten, starting from at least one row, at least one row is
    there. *)
Theorem dialog_rows_never_empty (participants participants' : list string) :
  (1 <= length participants)%nat ->
  rtc CreateMeetingDialog.edit participants participants' ->
  (1 <= length participants')%nat.
Proof.
  intros H Hedits. induction Hedits as [l | l l1 l' Hedit _ IH]; [exact H|].
  apply IH. destruct Hedit as [l | index l | index name l Hi].
  - unfold CreateMeetingDialog.addParticipant. rewrite length_app. cbn. lia.
  - unfold CreateMeetingDialog.removeParticipant.
    destruct (Nat.ltb_spec 1 (length l)); [|exact H].
    rewrite filter_index_delete. cbn [Nat.leb]. rewrite Nat.sub_0_r.
    destruct (Nat.lt_ge_cases index (length l)) as [Hi | Hi].
    + rewrite length_delete; [lia|]. apply lookup_lt_is_Some. exact Hi.
    + rewrite delete_past_end by exact Hi. exact H.
  - rewrite length_insert. exact H.
Qed.

(** ** CreateMeetingDialog: what a creation writes *)

Lemma new_participants_names meeting names gp :
  map p_name (new_participants meeting names gp) = map trim names.
Proof.
  unfold new_participants. generalize 0%nat as a.
  induction names as [|n names IH]; intros a; [reflexivity|].
  cbn [length seq combine map p_name]. now rewrite IH.
Qed.

Lemma validParticipants_named st :
  Forall (fun n => truthy (trim n) = true) (validParticipants st).
Proof.
  unfold validParticipants. apply List.Forall_forall. intros n Hn.
  apply filter_In in Hn. destruct Hn as [_ Hn].
  now rewrite truthy_not_empty.
Qed.

(** X20. A creation that ends with its confirmation, every call accepted,
    has added one participant for each name of the dialog that is not blank,
    in the order of the dialog: in the new meeting, under the name without
    the white space around it (so never empty), with zero totals and not
    speaking. The dialog is back to a single empty row. *)
Theorem handleCreate_inserts_trimmed_names user now gm gp st w description :
  all_accept (script w) = true ->
  snd (fst (handleCreate user now gm gp st w))
    = Some (Toast "Meeting created" description) ->
  let out := handleCreate user now gm gp st w in
  let added := new_participants (gen_id gm) (validParticipants st) gp in
  participants (store (snd out)) = participants (store w) ++ added /\
  map p_name added = map trim (validParticipants st) /\
  Forall (fun r => truthy (p_name r) = true /\ p_meeting_id r = gen_id gm /\
                   p_total_speaking_time r = 0 /\ p_speaking_sessions r = 0 /\
                   p_is_currently_speaking r = false) added /\
  dlg_participants (fst (fst out)) = [""] /\
  dlg_title (fst (fst out)) = "".
Proof.
  intros Hacc Hdone out added. subst out added.
  destruct (handleCreate_done user now gm gp st w description Hacc Hdone)
    as [u [rest [_ ->]]].
  cbn [fst snd store participants dlg_participants dlg_title].
  repeat split.
  - apply new_participants_names.
  - apply List.Forall_forall. intros r Hr.
    assert (Hname : In (p_name r) (map trim (validParticipants st))).
    { rewrite <- (new_participants_names (gen_id gm) _ gp). now apply in_map. }
    apply in_map_iff in Hname. destruct Hname as [n [Hn Hin]].
    pose proof (validParticipants_named st) as Hv.
    rewrite List.Forall_forall in Hv. specialize (Hv n Hin).
    unfold new_participants in Hr. apply in_map_iff in Hr.
    destruct Hr as [[i name] [<- _]]. cbn in *. rewrite <- Hn. auto.
Qed.

Lemma request_keeps_meetings {A} (f : Db -> option (A * Db)) w r w' :
  (forall d a d', f d = Some (a, d') -> meetings d' = meetings d) ->
  request f w = (r, w') -> meetings (store w') = meetings (store w).
Proof.
  intros Hf E. apply request_inv in E.
  destruct E as [[_ ->] | [a [_ E]]]; [reflexivity|]. exact (Hf _ _ _ E).
Qed.

(** X21. [handleCreate] ends the user's meetings in progress before
    anything else: once its first call is accepted on a valid form, every
    meeting of the signed-in user that was active is inactive and stamped
    with the instant of the call, its other columns as they were, whether or
    not the rest of the creation succeeds. The meetings of other users are
    as they were, and the only meeting of the user that can be active
    afterwards is the new one. *)
Theorem handleCreate_ends_previous_meetings_first user now gm gp st w :
  first_accepted (script w) = true ->
  blank (dlg_title st) = false ->
  forallb blank (dlg_participants st) = false ->
  let ms' := meetings (store (snd (handleCreate user now gm gp st w))) in
  (forall m, In m (meetings (store w)) ->
             m_is_active m = true -> own_meeting user m = true ->
             exists m', In m' ms' /\
               m_id m' = m_id m /\ m_title m' = m_title m /\
               m_created_by m' = m_created_by m /\
               m_created_at m' = m_created_at m /\
               m_is_active m' = false /\ m_ended_at m' = Some now) /\
  (forall m, In m (meetings (store w)) -> own_meeting user m = false -> In m ms') /\
  (forall m', In m' ms' -> m_is_active m' = true -> own_meeting user m' = true ->
              exists u, user = Some u /\ m' = new_meeting u gm st).
Proof.
  intros Hfirst Htitle Hnames. unfold handleCreate.
  fold (blank (dlg_title st)). rewrite Htitle.
  assert (Hvalid : (length (List.filter (fun p => negb (String.eqb (trim p) ""))
                      (dlg_participants st)) =? 0)%nat = false).
  { apply Nat.eqb_neq. intros Hlen. apply length_zero_iff_nil in Hlen.
    assert (forallb blank (dlg_participants st) = true); [|congruence].
    apply forallb_forall. intros n Hn. unfold blank. rewrite truthy_not_empty.
    destruct (negb (String.eqb (trim n) "")) eqn:E; [|reflexivity].
    assert (Hin : In n (List.filter (fun p => negb (String.eqb (trim p) ""))
                          (dlg_participants st))) by (apply filter_In; auto).
    rewrite Hlen in Hin. contradiction. }
  rewrite Hvalid. unfold bind, ret.
  rewrite (request_first_accepted _ w Hfirst).
  cbn [store script meetings with_meetings].
  set (ended := update_where
                  (fun m => Bool.eqb (m_is_active m) true && own_meeting user m)
                  (set_inactive now) (meetings (store w))).
  set (w0 := {| store := with_meetings ended (store w); script := _ |}).
  assert (H0 : meetings (store w0) = ended) by reflexivity. clearbody w0.
  assert (Hnone : forall m', In m' ended -> m_is_active m' = true ->
                             own_meeting user m' = true -> False).
  { intros m' Hm' Ha Ho.
    assert (H : In m' (List.filter (fun m => m_is_active m && own_meeting user m) ended)).
    { apply filter_In. split; [exact Hm'|]. now rewrite Ha, Ho. }
    unfold ended in H. now rewrite deactivated_own in H. }
  assert (Hcases : forall w', meetings (store w') = ended \/
            (exists u, user = Some u /\
                       meetings (store w') = ended ++ [new_meeting u gm st]) ->
            (forall m, In m (meetings (store w)) ->
               m_is_active m = true -> own_meeting user m = true ->
               exists m', In m' (meetings (store w')) /\
                 m_id m' = m_id m /\ m_title m' = m_title m /\
                 m_created_by m' = m_created_by m /\
                 m_created_at m' = m_created_at m /\
                 m_is_active m' = false /\ m_ended_at m' = Some now) /\
            (forall m, In m (meetings (store w)) -> own_meeting user m = false ->
                       In m (meetings (store w'))) /\
            (forall m', In m' (meetings (store w')) -> m_is_active m' = true ->
                        own_meeting user m' = true ->
                        exists u, user = Some u /\ m' = new_meeting u gm st)).
  { intros w' Hw'.
    assert (Hsub : forall m, In m ended -> In m (meetings (store w'))).
    { destruct Hw' as [-> | [u [_ ->]]]; [auto|]. intros m Hm. apply in_or_app. now left. }
    split; [|split].
    - intros m Hm Ha Ho. exists (set_inactive now m). split.
      + apply Hsub. now apply (proj1 (ended_own user now _ m Hm)).
      + cbn [set_inactive m_id m_title m_created_by m_created_at m_is_active m_ended_at].
        repeat split; reflexivity.
    - intros m Hm Ho. apply Hsub. now apply (proj2 (ended_own user now _ m Hm)).
    - intros m' Hm' Ha Ho. destruct Hw' as [E | [u [Hu E]]]; rewrite E in Hm'.
      + elim (Hnone m' Hm' Ha Ho).
      + apply in_app_or in Hm'. destruct Hm' as [Hm' | [<- | []]].
        * elim (Hnone m' Hm' Ha Ho).
        * now exists u. }
  destruct (request _ w0) as [r1 w1] eqn:E1. apply request_inv in E1.
  destruct E1 as [[-> Hst] | [meeting [-> E1]]].
  - cbn [snd]. apply Hcases. left. now rewrite Hst.
  - destruct user as [u|]; [|discriminate].
    fold (new_meeting u gm st) in E1.
    destruct (insert_row m_id _ _) as [l|] eqn:El; [|discriminate].
    unfold insert_row in El. destruct (existsb _ _); [discriminate|].
    injection El as <-. injection E1 as <- E1.
    destruct (request _ w1) as [r2 w2] eqn:E2.
    apply request_keeps_meetings in E2.
    + assert (Hm2 : meetings (store w2) = ended ++ [new_meeting u gm st]).
      { rewrite E2, <- E1. cbn [meetings with_meetings]. now rewrite H0. }
      destruct r2; cbn [snd]; apply Hcases; right; exists u; auto.
    + intros d a d' H. destruct (insert_rows _ _ _); [|discriminate].
      injection H as _ <-. reflexivity.
Qed.

(** ** MeetingDashboard *)

Lemma find_map {A B} (f : B -> bool) (g : A -> B) (l : list A) :
  find f (map g l) = option_map g (find (fun x => f (g x)) l).
Proof.
  induction l as [|a l IH]; [reflexivity|].
  cbn [map find]. destruct (f (g a)); [reflexivity|exact IH].
Qed.

Lemma find_first_sorted {A} (R : A -> A -> Prop) (f : A -> bool) (l : list A) x :
  StronglySorted R l -> find f l = Some x ->
  forall y, In y l -> f y = true -> y = x \/ R x y.
Proof.
  induction 1 as [|a l Hl IH Ha]; [discriminate|].
  cbn [find]. destruct (f a) eqn:Efa.
  - intros [= <-] y [<- | Hy] _; [now left|right].
    rewrite List.Forall_forall in Ha. now apply Ha.
  - intros Hfind y [<- | Hy] Hfy; [congruence|]. now apply IH.
Qed.

Lemma find_none_iff {A} (f : A -> bool) (l : list A) :
  find f l = None <-> forall x, In x l -> f x = false.
Proof.
  split; [apply find_none|].
  intros H. destruct (find f l) as [x|] eqn:E; [|reflexivity].
  apply find_some in E. destruct E as [Hx Hfx]. rewrite (H x Hx) in Hfx. discriminate.
Qed.

(** X22. [fetchMeetings] reads and never writes, and the dashboard stops
    loading whatever the answer. When the store accepts the call, the
    dashboard lists the meetings of the signed-in user and no others; the
    meeting it opens is the most recently created of that user's active
    meetings, shown with its own participants, and there is none exactly
    when that user has no active meeting. When the store refuses, the
    dashboard keeps what it had and shows the error. *)
Theorem fetchMeetings_opens_latest_active user st w :
  let out := fetchMeetings user st w in
  let st' := fst (fst out) in
  store (snd out) = store w /\
  dash_loading st' = false /\
  if first_accepted (script w) then
    snd (fst out) = None /\
    Permutation (map dm_meeting (dash_meetings st'))
      (List.filter (own_meeting user) (meetings (store w))) /\
    (dash_activeMeeting st' = None <->
     forall m, In m (meetings (store w)) -> own_meeting user m = true ->
               m_is_active m = false) /\
    (forall dm, dash_activeMeeting st' = Some dm ->
       In (dm_meeting dm) (meetings (store w)) /\
       own_meeting user (dm_meeting dm) = true /\
       m_is_active (dm_meeting dm) = true /\
       (forall m, In m (meetings (store w)) -> own_meeting user m = true ->
                  m_is_active m = true ->
                  m_created_at m <= m_created_at (dm_meeting dm)) /\
       dm_participants dm
       = List.filter (fun p => String.eqb (p_meeting_id p) (m_id (dm_meeting dm)))
           (participants (store w)))
  else
    snd (fst out) = Some (Toast "Error" "Failed to load meetings") /\
    dash_meetings st' = dash_meetings st /\
    dash_activeMeeting st' = dash_activeMeeting st.
Proof.
  intros out st'. subst out st'. unfold fetchMeetings, bind, ret.
  destruct (first_accepted (script w)) eqn:E.
  2:{ rewrite (request_first_refused _ w E).
      cbn [fst snd store dash_loading dash_meetings dash_activeMeeting]. auto. }
  rewrite (request_first_accepted _ w E).
  cbn [fst snd store dash_loading dash_meetings dash_activeMeeting].
  split; [reflexivity|]. split; [reflexivity|]. split; [reflexivity|].
  unfold select_meetings. rewrite find_map, map_map. cbn [dm_meeting].
  rewrite List.map_id.
  set (own := List.filter (own_meeting user) (meetings (store w))).
  assert (Hown : forall m, In m own <->
                           In m (meetings (store w)) /\ own_meeting user m = true).
  { intros m. apply filter_In. }
  pose proof (sort_desc_perm m_created_at own) as Hperm.
  pose proof (sort_desc_sorted m_created_at own) as Hsorted.
  split; [exact Hperm|].
  destruct (find (fun x => m_is_active x) (sort_desc m_created_at own))
    as [m0|] eqn:Ef; cbn [option_map].
  - pose proof (find_some _ _ Ef) as [Hin Ha].
    apply (Permutation_in _ Hperm) in Hin. apply Hown in Hin.
    destruct Hin as [Hin Ho]. split.
    + split; [discriminate|]. intros Hnone.
      rewrite (Hnone m0 Hin Ho) in Ha. discriminate.
    + intros dm [= <-]. cbn [dm_meeting dm_participants].
      split; [exact Hin|]. split; [exact Ho|]. split; [exact Ha|].
      split; [|reflexivity].
      intros m Hm Hmo Hma.
      assert (Hm' : In m (sort_desc m_created_at own)).
      { apply (Permutation_in _ (Permutation_sym Hperm)). apply Hown. auto. }
      destruct (find_first_sorted _ _ _ _ Hsorted Ef m Hm' Hma) as [-> | H];
        [lia|exact H].
  - split; [|discriminate]. split; [|reflexivity]. intros _ m Hm Ho.
    assert (Hm' : In m (sort_desc m_created_at own)).
    { apply (Permutation_in _ (Permutation_sym Hperm)). apply Hown. auto. }
    exact (proj1 (find_none_iff _ _) Ef m Hm').
Qed.

(** X23. After a creation that ends with its confirmation, a fetch of the
    dashboard by the same user opens the new meeting, all calls accepted. *)
Theorem created_meeting_is_opened user now gm gp form w description dash sc :
  all_accept (script w) = true ->
  snd (fst (handleCreate user now gm gp form w))
    = Some (Toast "Meeting created" description) ->
  all_accept sc = true ->
  let created := handleCreate user now gm gp form w in
  let out := fetchMeetings user dash (answering sc (store (snd created))) in
  exists u,
    user = Some u /\
    dash_activeMeeting (fst (fst out))
    = Some {| dm_meeting := new_meeting u gm form;
              dm_participants :=
                List.filter (fun p => String.eqb (p_meeting_id p) (gen_id gm))
                  (participants (store (snd created))) |}.
Proof.
  intros Hacc Hdone Hsc created out. subst created out.
  destruct (handleCreate_done user now gm gp form w description Hacc Hdone)
    as [u [rest [Hu ->]]].
  exists u. split; [exact Hu|]. subst user.
  unfold fetchMeetings, bind, ret. accept_request.
  cbn [fst snd store answering dash_activeMeeting].
  unfold select_meetings. rewrite find_map. cbn [dm_meeting meetings participants].
  set (ms := update_where _ _ _ ++ [new_meeting u gm form]).
  assert (Hsole : List.filter (fun x => m_is_active x)
                    (List.filter (own_meeting (Some u)) ms)
                  = [new_meeting u gm form]).
  { rewrite filter_filter_and.
    replace (List.filter _ ms)
      with (List.filter (fun m => m_is_active m && own_meeting (Some u) m) ms).
    - unfold ms. apply filter_app_single; [apply deactivated_own|].
      cbn [new_meeting m_is_active own_meeting m_created_by andb].
      apply String.eqb_refl.
    - apply filter_ext. intros m. apply andb_comm. }
  rewrite (find_sole_sorted m_created_at (fun x => m_is_active x) _ _ Hsole).
  reflexivity.
Qed.

(** X24. An accepted [handleEndMeeting] marks the meeting inactive and stamps
    it, and touches nothing else: the other meetings, all participants (a
    speaker stays marked as speaking) and all sessions (an open session stays
    open) are as they were. *)
Theorem handleEndMeeting_ends_only_the_meeting meetingId now w :
  all_accept (script w) = true ->
  let out := handleEndMeeting meetingId now w in
  let d' := store (snd out) in
  fst out = Some (Toast "Meeting ended" "The meeting has been successfully ended") /\
  participants d' = participants (store w) /\
  speaking_sessions d' = speaking_sessions (store w) /\
  questions d' = questions (store w) /\
  map m_id (meetings d') = map m_id (meetings (store w)) /\
  (forall m, In m (meetings (store w)) -> m_id m <> meetingId -> In m (meetings d')) /\
  (forall m', In m' (meetings d') -> m_id m' = meetingId ->
              m_is_active m' = false /\ m_ended_at m' = Some now).
Proof.
  intros Hacc out d'. subst out d'. unfold handleEndMeeting, bind, ret.
  accept_request. cbn [fst snd store].
  cbn [participants speaking_sessions questions meetings with_meetings].
  repeat split.
  - apply update_where_field. reflexivity.
  - intros m Hm Hne.
    pose proof (In_update_where (fun x => String.eqb (m_id x) meetingId)
      (set_inactive now) _ m Hm) as H. cbv beta in H.
    apply String.eqb_neq in Hne. now rewrite Hne in H.
  - apply update_where_hit in H. destruct H as [m [_ ->]].
    destruct (String.eqb (m_id m) meetingId) eqn:E; [reflexivity|].
    apply String.eqb_neq in E. contradiction.
  - apply update_where_hit in H. destruct H as [m [_ ->]].
    destruct (String.eqb (m_id m) meetingId) eqn:E; [reflexivity|].
    apply String.eqb_neq in E. contradiction.
Qed.

(** X25. When the meeting that is ended was the only active one, the next
    fetch leaves the dashboard with no meeting open: the view goes back to
    the list, all calls accepted. *)
Theorem ended_meeting_is_closed meetingId now w user dash sc :
  all_accept (script w) = true ->
  all_accept sc = true ->
  (forall m, In m (meetings (store w)) -> m_is_active m = true -> m_id m = meetingId) ->
  let ended := handleEndMeeting meetingId now w in
  dash_activeMeeting
    (fst (fst (fetchMeetings user dash (answering sc (store (snd ended)))))) = None.
Proof.
  intros Hacc Hsc Honly ended. subst ended.
  unfold handleEndMeeting, fetchMeetings, bind, ret.
  accept_request. cbn [snd]. accept_request.
  cbn [fst dash_activeMeeting answering store].
  unfold select_meetings. rewrite find_map. cbn [dm_meeting meetings with_meetings].
  replace (find _ _) with (@None Meeting); [reflexivity|].
  symmetry. apply find_none_iff. intros m Hm.
  apply (Permutation_in _ (sort_desc_perm m_created_at _)) in Hm.
  apply filter_In in Hm. destruct Hm as [Hm _].
  apply update_where_hit in Hm. destruct Hm as [m0 [Hm0 ->]].
  destruct (String.eqb (m_id m0) meetingId) eqn:E; [reflexivity|].
  destruct (m_is_active m0) eqn:Ea; [|reflexivity].
  apply String.eqb_neq in E. elim E. now apply Honly.
Qed.

(** ** QuestionsPanel *)

(** X26. A submission with a question and, unless anonymous, a name, every
    call accepted and a new identifier, adds exactly one question: the text
    and the name without the white space around them, not answered. It is
    shown as coming from Anonymous exactly when it was sent anonymously, and
    under the name otherwise. The question field is emptied, the name is
    kept for the next question. *)
Theorem submitQuestion_adds_one_question meetingId g st w :
  blank (newQuestion st) = false ->
  (isAnonymous st = true \/ blank (askerName st) = false) ->
  all_accept (script w) = true ->
  fresh q_id (gen_id g) (questions (store w)) = true ->
  let out := submitQuestion meetingId g st w in
  questions (store (snd out)) = questions (store w) ++ [new_question meetingId g st] /\
  shown_asker (new_question meetingId g st)
    = (if isAnonymous st then Anonymous else Named (trim (askerName st))) /\
  truthy (q_question (new_question meetingId g st)) = true /\
  fst (fst out) = {| newQuestion := ""; askerName := askerName st;
                     isAnonymous := isAnonymous st |} /\
  snd (fst out) = Some (Toast "Question submitted"
                          "Your question has been added to the meeting").
Proof.
  unfold blank. intros Hq Hname Hacc Hfresh. unfold submitQuestion.
  rewrite Hq.
  assert (Hok : negb (isAnonymous st) && negb (truthy (trim (askerName st))) = false).
  { destruct Hname as [-> | ->]; [reflexivity|apply andb_false_r]. }
  rewrite Hok. unfold bind, ret. accept_request.
  fold (new_question meetingId g st).
  rewrite (insert_row_fresh q_id (new_question meetingId g st)) by exact Hfresh.
  cbn [fst snd store questions with_questions].
  repeat split.
  - unfold shown_asker, new_question. cbn [q_asker_name].
    destruct (isAnonymous st); [reflexivity|].
    destruct Hname as [? | Hn]; [discriminate|].
    apply negb_false_iff in Hn. now rewrite Hn.
  - cbn [new_question q_question]. now apply negb_false_iff.
Qed.

Lemma toggleAnswered_accepted questionId isAnswered w :
  all_accept (script w) = true ->
  exists rest,
    toggleAnswered questionId isAnswered w =
      (Some (Toast (if isAnswered then "Question marked as unanswered"
                    else "Question marked as answered") "Question status updated"),
       {| store :=
            {| meetings := meetings (store w);
               participants := participants (store w);
               speaking_sessions := speaking_sessions (store w);
               questions :=
                 update_where (fun q => String.eqb (q_id q) questionId)
                   (set_is_answered (negb isAnswered)) (questions (store w)) |};
          script := rest |}).
Proof.
  intros Hacc. unfold toggleAnswered, bind, ret. accept_request.
  eexists. reflexivity.
Qed.

Lemma unanswered_after_toggle (rows : list Question) q :
  unique q_id rows = true -> In q rows ->
  let rows' := update_where (fun x => String.eqb (q_id x) (q_id q))
                 (set_is_answered (negb (q_is_answered q))) rows in
  (if q_is_answered q
   then unansweredCount rows' = S (unansweredCount rows)
   else S (unansweredCount rows') = unansweredCount rows) /\
  update_where (fun x => String.eqb (q_id x) (q_id q))
    (set_is_answered (q_is_answered q)) rows' = rows.
Proof.
  intros Hu Hin. cbv zeta. unfold unansweredCount.
  induction rows as [|a rows IH]; [contradiction|].
  cbn [unique] in Hu. apply andb_true_iff in Hu. destruct Hu as [Hfa Hu].
  destruct Hin as [-> | Hin].
  - assert (Htail : forall b,
              update_where (fun x => String.eqb (q_id x) (q_id q))
                (set_is_answered b) rows = rows).
    { intros b. apply update_where_none. intros r Hr. apply String.eqb_neq.
      apply fresh_spec with (x := r) in Hfa; assumption. }
    unfold update_where in *. cbn [map List.filter].
    rewrite !String.eqb_refl. cbn [set_is_answered q_id q_is_answered].
    rewrite ?String.eqb_refl, !Htail.
    split.
    + destruct (q_is_answered q); cbn [negb length]; reflexivity.
    + f_equal. destruct q; reflexivity.
  - specialize (IH Hu Hin).
    assert (Hne : String.eqb (q_id a) (q_id q) = false).
    { apply String.eqb_neq. intros Heq.
      apply fresh_spec with (x := q) in Hfa; [|exact Hin]. congruence. }
    unfold update_where in *. cbn [map List.filter]. rewrite Hne.
    cbn [map]. rewrite Hne. destruct IH as [IH1 IH2]. split.
    + destruct (q_is_answered q), (negb (q_is_answered a)); cbn [length]; lia.
    + now rewrite IH2.
Qed.

(** X27. [toggleAnswered] from the card of a stored question, all calls
    accepted, changes that question only: the number of pending questions
    goes up by one when the question was answered and down by one when it was
    not, and a second toggle from the card as fetched afterwards puts the
    list of questions back as it was. *)
Theorem toggleAnswered_flips_one_question q w sc :
  all_accept (script w) = true ->
  all_accept sc = true ->
  unique q_id (questions (store w)) = true ->
  In q (questions (store w)) ->
  let once := toggleAnswered (q_id q) (q_is_answered q) w in
  let twice := toggleAnswered (q_id q) (negb (q_is_answered q))
                 (answering sc (store (snd once))) in
  (if q_is_answered q
   then unansweredCount (questions (store (snd once)))
        = S (unansweredCount (questions (store w)))
   else S (unansweredCount (questions (store (snd once))))
        = unansweredCount (questions (store w))) /\
  In (set_is_answered (negb (q_is_answered q)) q) (questions (store (snd once))) /\
  questions (store (snd twice)) = questions (store w).
Proof.
  intros Hacc Hsc Hu Hin once twice. subst once twice.
  destruct (toggleAnswered_accepted (q_id q) (q_is_answered q) w Hacc) as [rest ->].
  cbn [snd store questions].
  match goal with
  | |- context [toggleAnswered (q_id q) (negb (q_is_answered q)) ?w1] =>
      destruct (toggleAnswered_accepted (q_id q) (negb (q_is_answered q)) w1 Hsc)
        as [rest' ->]
  end.
  cbn [snd store questions answering]. rewrite negb_involutive.
  destruct (unanswered_after_toggle _ q Hu Hin) as [Hcount Hback].
  split; [exact Hcount|]. split; [|exact Hback].
  pose proof (In_update_where (fun x => String.eqb (q_id x) (q_id q))
    (set_is_answered (negb (q_is_answered q))) _ q Hin) as H.
  cbv beta in H. now rewrite String.eqb_refl in H.
Qed.

(** * The further properties at work *)

Lemma formatTime_injective_witness : 3725 = 3725.
Proof.
  apply (formatTime_injective 3725 3725); [lia|lia|reflexivity].
Defined.

Lemma formatTime_two_digit_seconds_witness :
  String.length (formatTime 3725) = (String.length (toString (3725 / 60)) + 3)%nat.
Proof.
  apply (formatTime_two_digit_seconds 3725). lia.
Defined.

Lemma startSpeaking_failed_witness :
  List.filter (speaking_in "m-1") (participants (store (snd bob_start_refused))) = [].
Proof.
  unfold bob_start_refused.
  apply (startSpeaking_failed_leaves_no_speaker bob "m-1" 4000 (generated "s-2" 4000)
           idle (answering [Accept; Accept; Accept; Reject] (store (snd alice_started)))).
  - reflexivity.
  - vm_compute. discriminate.
Defined.

Lemma startSpeaking_other_meetings_witness :
  In carol (participants (store (snd
     (startSpeaking alice "m-1" 1000 (generated "s-1" 1000) idle
        (answering [] two_meetings))))) /\
  In carol_session (speaking_sessions (store (snd
     (startSpeaking alice "m-1" 1000 (generated "s-1" 1000) idle
        (answering [] two_meetings))))).
Proof.
  destruct (startSpeaking_other_meetings_untouched alice "m-1" 1000
              (generated "s-1" 1000) idle (answering [] two_meetings)
              eq_refl eq_refl eq_refl) as [Hp [Hs _]].
  split.
  - apply Hp; [left; reflexivity|discriminate|discriminate].
  - apply Hs; [left; reflexivity|discriminate].
Defined.

Lemma start_then_stop_witness :
  open_sessions_in "m-1"
    (speaking_sessions (store (snd
       (stopSpeaking alice_speaking 6000
          (Nat.iter 5 (tick alice_speaking) (fst (fst alice_started)))
          (answering [] (store (snd alice_started))))))) = [].
Proof.
  unfold alice_started.
  apply (start_then_stop_returns_to_idle alice "m-1" 1000 (generated "s-1" 1000) idle
           (answering [] standup) alice_speaking 6000 [] 5);
    try reflexivity.
  left. reflexivity.
Defined.

Lemma stopSpeaking_twice_witness :
  participants (store (snd
     (stopSpeaking alice_speaking 6500 alice_after_five_ticks
        (answering [] (store (snd
           (stopSpeaking alice_speaking 6000 alice_after_five_ticks
              (answering [] (store (snd alice_started))))))))))
  = participants (store (snd
     (stopSpeaking alice_speaking 6000 alice_after_five_ticks
        (answering [] (store (snd alice_started)))))).
Proof.
  apply (stopSpeaking_twice_credits_once alice_speaking 6000 6500
           alice_after_five_ticks (answering [] (store (snd alice_started))) []);
    reflexivity.
Defined.

Lemma timer_display_witness :
  timer_display alice_speaking
    (Nat.iter 75 (tick alice_speaking) (fst (fst alice_started)))
  = formatTime 75.
Proof.
  unfold alice_started.
  apply (timer_display_counts_from_zero alice "m-1" 1000 (generated "s-1" 1000) idle
           (answering [] standup) alice_speaking 75); try reflexivity.
  left. reflexivity.
Defined.

Lemma toggle_start_witness :
  List.filter (speaking_in "m-1") (participants (store (snd alice_clicked)))
    = [set_is_currently_speaking true alice] /\
  speaking_sessions (store (snd alice_clicked)) = [] /\
  toggle_toast (fst alice_clicked)
    = Some (Toast "Error" "Failed to update speaking status").
Proof.
  unfold alice_clicked.
  destruct (toggle_start_flags_speaker_without_session [alice; bob] "m-1" "p-alice"
              1000 (generated "s-1" 1000) None (answering [] standup) alice alice
              eq_refl eq_refl eq_refl eq_refl (or_introl eq_refl) eq_refl eq_refl)
    as [Hsole [Hledger [Htoast _]]].
  split; [exact Hsole|]. split; [exact Hledger|exact Htoast].
Defined.

Lemma toggle_start_then_stop_witness :
  List.filter (speaking_in "m-1")
    (participants (store (snd
       (toggleParticipantSpeaking (participants (store (snd alice_clicked)))
          "m-1" "p-alice" 8000 (generated "s-2" 8000) (Some "p-alice")
          (answering [] (store (snd alice_clicked))))))) = [].
Proof.
  unfold alice_clicked.
  apply (toggle_start_then_stop [alice; bob]
           (participants (store (snd alice_clicked))) "m-1" "p-alice" 1000 8000
           (generated "s-1" 1000) (generated "s-2" 8000) None (Some "p-alice")
           (answering [] standup) [] alice (set_is_currently_speaking true alice));
    reflexivity.
Defined.

Lemma addParticipant_witness :
  participants (store (snd
     (addParticipant "m-1" (generated "p-dan" 7000) typed_name (answering [] standup))))
  = participants standup ++
    [ {| p_id := "p-dan"; p_meeting_id := "m-1"; p_name := "Dan";
         p_total_speaking_time := 0; p_speaking_sessions := 0;
         p_is_currently_speaking := false |} ].
Proof.
  apply (proj2 (addParticipant_adds_one_trimmed_row "m-1" (generated "p-dan" 7000)
                  typed_name (answering [] standup))); reflexivity.
Defined.

Lemma removeParticipant_witness :
  In bob (participants (store (snd
     (removeParticipant "p-alice" (answering [] (store (snd alice_started))))))).
Proof.
  destruct (removeParticipant_cascades "p-alice"
              (answering [] (store (snd alice_started))) eq_refl) as [_ [H _]].
  apply H. split; [right; left; reflexivity|discriminate].
Defined.

Lemma displayTime_after_sync_witness :
  displayTime (sync_local_counters [alice; set_stats true 15 1 bob] ∅ 2000)
    (2000 + 1000 * 7 + 250) (set_stats true 15 1 bob) = 15 + 7.
Proof.
  apply (displayTime_after_sync [alice; set_stats true 15 1 bob] ∅ 2000
           (set_stats true 15 1 bob) 7 250); try reflexivity; lia.
Defined.

(** Alice's name is clicked at 1000; the list comes back and the effect runs
    at 1400. *)
Lemma name_click_then_fetch_witness :
  sync_local_counters
    (view_participants (fst (fst
       (fetchParticipants "m-1"
          {| view_participants := [alice; bob]; view_loading := false |}
          (answering [] (store (snd alice_clicked)))))))
    ∅ 1400
  = {[ "p-alice" := {| startTime := 1400; baseSeconds := 0 |} ]}.
Proof.
  unfold alice_clicked.
  apply (name_click_then_fetch_seeds_counter [alice; bob] "m-1" "p-alice" 1000
           (generated "s-1" 1000) None (answering [] standup) alice alice
           {| view_participants := [alice; bob]; view_loading := false |} [] ∅ 1400);
    try reflexivity.
  left. reflexivity.
Defined.

Lemma removeParticipant_rows_witness :
  CreateMeetingDialog.removeParticipant 0 ["Ann"] = ["Ann"] /\
  length (CreateMeetingDialog.removeParticipant 1 ["Ann"; ""; "Bo"]) = 2%nat.
Proof.
  split.
  - apply (proj1 (removeParticipant_takes_one_row 0 ["Ann"])). cbn. lia.
  - apply (proj2 (removeParticipant_takes_one_row 1 ["Ann"; ""; "Bo"])); cbn; lia.
Defined.

Lemma dialog_rows_run :
  rtc CreateMeetingDialog.edit [""] ["Ann"].
Proof.
  apply rtc_l with [""; ""]; [exact (CreateMeetingDialog.edit_add [""])|].
  apply rtc_l with ["Ann"; ""].
  { apply (CreateMeetingDialog.edit_update 0 "Ann" [""; ""]). cbn. lia. }
  apply rtc_once. exact (CreateMeetingDialog.edit_remove 1 ["Ann"; ""]).
Qed.

Lemma dialog_rows_never_empty_witness : (1 <= length ["Ann"])%nat.
Proof.
  apply (dialog_rows_never_empty [""] ["Ann"]); [cbn; lia|exact dialog_rows_run].
Defined.

Lemma handleCreate_names_witness :
  map p_name
    (new_participants "m-2" (validParticipants retro_form) retro_ids) = ["Carol"] /\
  participants (store (snd
     (handleCreate (Some "u-1") 50000 (generated "m-2" 50000) retro_ids retro_form
        (answering [] standup))))
  = participants standup
    ++ new_participants "m-2" (validParticipants retro_form) retro_ids.
Proof.
  destruct (handleCreate_inserts_trimmed_names (Some "u-1") 50000
              (generated "m-2" 50000) retro_ids retro_form (answering [] standup)
              "Retro has been created with 1 participants" eq_refl eq_refl)
    as [Hps [Hnames _]].
  split; [exact Hnames|exact Hps].
Defined.

(** The insert of the meeting is refused: the stand-up has been ended all the
    same, and the board meeting of the second user is still in progress. *)
Lemma handleCreate_ends_previous_witness :
  In {| m_id := "m-1"; m_title := "Standup"; m_created_by := "u-1";
        m_is_active := false; m_created_at := 0; m_ended_at := Some 50000 |}
     (meetings (store (snd
        (handleCreate (Some "u-1") 50000 (generated "m-2" 50000) retro_ids retro_form
           (answering [Accept; Reject] two_users))))) /\
  In {| m_id := "m-9"; m_title := "Board"; m_created_by := "u-2";
        m_is_active := true; m_created_at := 10; m_ended_at := None |}
     (meetings (store (snd
        (handleCreate (Some "u-1") 50000 (generated "m-2" 50000) retro_ids retro_form
           (answering [Accept; Reject] two_users))))).
Proof.
  destruct (handleCreate_ends_previous_meetings_first (Some "u-1") 50000
              (generated "m-2" 50000) retro_ids retro_form
              (answering [Accept; Reject] two_users) eq_refl eq_refl eq_refl)
    as [Hown [Hother _]].
  split.
  - destruct (Hown {| m_id := "m-1"; m_title := "Standup"; m_created_by := "u-1";
                      m_is_active := true; m_created_at := 0; m_ended_at := None |}
                (or_introl eq_refl) eq_refl eq_refl)
      as [m' [Hin [Hid [Htitle [Hby [Hat [Hactive Hended]]]]]]].
    destruct m' as [i t b a c e].
    cbn [m_id m_title m_created_by m_created_at m_is_active m_ended_at] in *.
    subst i t b a c e. exact Hin.
  - apply Hother; [right; left; reflexivity|reflexivity].
Defined.

Lemma created_meeting_is_opened_witness :
  option_map (fun dm => m_id (dm_meeting dm))
    (dash_activeMeeting (fst (fst
       (fetchMeetings (Some "u-1") dashboard_opened
          (answering [] (store (snd
             (handleCreate (Some "u-1") 50000 (generated "m-2" 50000) retro_ids
                retro_form (answering [] two_users))))))))) = Some "m-2".
Proof.
  destruct (created_meeting_is_opened (Some "u-1") 50000 (generated "m-2" 50000)
              retro_ids retro_form (answering [] two_users)
              "Retro has been created with 1 participants" dashboard_opened []
              eq_refl eq_refl eq_refl) as [u [_ ->]].
  reflexivity.
Defined.

Lemma handleEndMeeting_witness :
  participants (store (snd
     (handleEndMeeting "m-1" 9000 (answering [] (store (snd alice_started))))))
  = participants (store (snd alice_started)) /\
  speaking_sessions (store (snd
     (handleEndMeeting "m-1" 9000 (answering [] (store (snd alice_started))))))
  = speaking_sessions (store (snd alice_started)).
Proof.
  destruct (handleEndMeeting_ends_only_the_meeting "m-1" 9000
              (answering [] (store (snd alice_started))) eq_refl)
    as [_ [Hp [Hs _]]].
  split; [exact Hp|exact Hs].
Defined.

Lemma ended_meeting_is_closed_witness :
  dash_activeMeeting (fst (fst
     (fetchMeetings (Some "u-1") dashboard_opened
        (answering [] (store (snd
           (handleEndMeeting "m-1" 9000 (answering [] two_meetings)))))))) = None.
Proof.
  apply (ended_meeting_is_closed "m-1" 9000 (answering [] two_meetings)
           (Some "u-1") dashboard_opened [] eq_refl eq_refl).
  intros m [<- | [<- | []]] Ha; [discriminate|reflexivity].
Defined.

Lemma submitQuestion_witness :
  questions (store (snd
     (submitQuestion "m-1" (generated "q-1" 9100) typed_question
        (answering [] two_meetings))))
  = [pending_question; new_question "m-1" (generated "q-1" 9100) typed_question] /\
  shown_asker (new_question "m-1" (generated "q-1" 9100) typed_question) = Named "Bob".
Proof.
  destruct (submitQuestion_adds_one_question "m-1" (generated "q-1" 9100)
              typed_question (answering [] two_meetings)
              eq_refl (or_intror eq_refl) eq_refl eq_refl) as [Hq [Hshown _]].
  split; [exact Hq|exact Hshown].
Defined.

Lemma toggleAnswered_witness :
  S (unansweredCount (questions (store (snd
       (toggleAnswered "q-0" false (answering [] two_meetings))))))
  = unansweredCount (questions two_meetings).
Proof.
  apply (toggleAnswered_flips_one_question pending_question
           (answering [] two_meetings) [] eq_refl eq_refl eq_refl
           (or_introl eq_refl)).
Defined.
